(** * JamCapture: the capture orchestration engine

    A shallow embedding of [internal/audio/pipewire.go] and
    [internal/audio/pipewire_backend.go].  Go strings are byte strings
    ([string]); a Go [error] is its message, [None] standing for [nil].
    Everything the program learns from outside (the output of [pw-link],
    the file system, the encoder process) is an explicit argument of the
    operation that asks for it. *)

From Stdlib Require Import ZArith Ascii String DecimalString.
From stdpp Require Import base option list gmap strings.

Local Open Scope string_scope.

(** ** The parts of Go's [strings] and [fmt] the program calls *)

Module GoStrings.

(** [strings.HasPrefix(s, prefix)]. *)
Fixpoint HasPrefix (s pre : string) : bool :=
  match pre with
  | EmptyString => true
  | String c pre' =>
      match s with
      | EmptyString => false
      | String d s' => if Ascii.eqb c d then HasPrefix s' pre' else false
      end
  end.

(** [strings.Contains(s, substr)]: some suffix of [s] starts with
    [substr]. *)
Fixpoint Contains (s substr : string) : bool :=
  if HasPrefix s substr then true
  else match s with
       | EmptyString => false
       | String _ s' => Contains s' substr
       end.

Definition is_upper (c : ascii) : bool :=
  ((65 <=? nat_of_ascii c) && (nat_of_ascii c <=? 90))%nat.

Definition lower_byte (c : ascii) : ascii :=
  if is_upper c then ascii_of_nat (nat_of_ascii c + 32) else c.

(** [strings.ToLower(s)] on the letters A-Z; every other byte is
    kept (this is what Go does on a string without bytes above 0x7f). *)
Fixpoint ToLower (s : string) : string :=
  match s with
  | EmptyString => EmptyString
  | String c s' => String (lower_byte c) (ToLower s')
  end.

(** The white space of the ASCII range: tab, line feed, vertical tab,
    form feed, carriage return and space. *)
Definition is_space (c : ascii) : bool :=
  let n := nat_of_ascii c in
  ((9 <=? n) && (n <=? 13) || (n =? 32))%nat.

Fixpoint trim_left (s : string) : string :=
  match s with
  | EmptyString => EmptyString
  | String c s' => if is_space c then trim_left s' else s
  end.

(** Drops the white space at the end: a byte is dropped when it is white
    space and nothing is left after it. *)
Fixpoint trim_right (s : string) : string :=
  match s with
  | EmptyString => EmptyString
  | String c s' =>
      match trim_right s' with
      | EmptyString => if is_space c then EmptyString else String c EmptyString
      | t => String c t
      end
  end.

(** [strings.TrimSpace(s)] for a string of ASCII bytes. *)
Definition TrimSpace (s : string) : string := trim_right (trim_left s).

(** [strings.ReplaceAll(s, old, new)] where [old] and [new] are one byte
    each. *)
Fixpoint ReplaceAll1 (s : string) (old new : ascii) : string :=
  match s with
  | EmptyString => EmptyString
  | String c s' =>
      String (if Ascii.eqb c old then new else c) (ReplaceAll1 s' old new)
  end.

(** [strings.Join(elems, sep)]. *)
Fixpoint Join (elems : list string) (sep : string) : string :=
  match elems with
  | [] => EmptyString
  | [e] => e
  | e :: rest => e +:+ sep +:+ Join rest sep
  end.

(** The verb [%d] on a non-negative machine integer. *)
Definition itoa (n : nat) : string := NilEmpty.string_of_uint (Nat.to_uint n).

(** The verb [%d] on an [int64]. *)
Definition ztoa (z : Z) : string :=
  if (z <? 0)%Z then "-" +:+ itoa (Z.to_nat (- z)) else itoa (Z.to_nat z).

(** The verb [%v] on a [[]string]. *)
Definition fmt_slice (l : list string) : string := "[" +:+ Join l " " +:+ "]".

End GoStrings.

(** A Go [error] value, by its message. *)
Definition error := string.

Inductive result (A : Type) : Type :=
| Ok (a : A)
| Err (e : error).
Arguments Ok {A} a.
Arguments Err {A} e.

(** ** pipewire.go: the port directory and the connection manager *)

Module PipeWire.
Import GoStrings.

(** What one run of [pw-link -io] gave: the command failed, or printed
    lines; [lines] holds every line of the output after
    [strings.TrimSpace], the form in which both readers of the output
    look at it. *)
Inductive PwLinkOutput : Type :=
| PwFailed (msg : string)
| PwLines (lines : list string).

Definition is_port_line (line : string) : bool :=
  negb (String.eqb line "")
  && negb (HasPrefix line "Input ports:")
  && negb (HasPrefix line "Output ports:").

Definition ListPorts (out : PwLinkOutput) : result (list string) :=
  match out with
  | PwFailed e => Err ("failed to list PipeWire ports: " +:+ e)
  | PwLines lines => Ok (List.filter is_port_line lines)
  end.

Definition portExists (out : PwLinkOutput) (portName : string) : bool :=
  match out with
  | PwFailed _ => false
  | PwLines lines => existsb (fun line => String.eqb line portName) lines
  end.

Definition findPortDuplicatesInList (portName : string) (allPorts : list string)
  : list string :=
  List.filter (fun port => String.eqb port portName) allPorts.

Definition findPortDuplicates (out : PwLinkOutput) (portName : string)
  : result (list string) :=
  match ListPorts out with
  | Err e => Err ("failed to list ports: " +:+ e)
  | Ok allPorts => Ok (findPortDuplicatesInList portName allPorts)
  end.

Definition err_not_found (portName : string) : error :=
  "port not found: " +:+ portName.

Definition err_duplicates (portName : string) (duplicates : list string) : error :=
  "duplicate sources detected for '" +:+ portName +:+ "': "
    +:+ fmt_slice duplicates +:+ ". Please close conflicting applications".

(** [ValidatePort]; the routing graph is the same for its two queries. *)
Definition ValidatePort (out : PwLinkOutput) (portName : string) : option error :=
  if String.eqb portName "" || String.eqb portName "disabled" then None
  else if negb (portExists out portName) then Some (err_not_found portName)
  else match findPortDuplicates out portName with
       | Err e => Some ("failed to check port duplicates: " +:+ e)
       | Ok duplicates =>
           if (1 <? length duplicates)%nat
           then Some (err_duplicates portName duplicates)
           else None
       end.

(** The helper of the test file, which takes the port list as given. *)
Definition TestableValidatePort (portName : string) (allPorts : list string)
  : option error :=
  if String.eqb portName "" || String.eqb portName "disabled" then None
  else if negb (existsb (fun port => String.eqb port portName) allPorts)
       then Some (err_not_found portName)
  else let duplicates := findPortDuplicatesInList portName allPorts in
       if (1 <? length duplicates)%nat
       then Some (err_duplicates portName duplicates)
       else None.

Definition ephemeralApps : list string :=
  ["chrome"; "firefox"; "spotify"; "discord"; "steam";
   "vlc"; "mpv"; "zoom"; "teams"; "slack"; "wire"].

Definition isEphemeralPort (portName : string) : bool :=
  let lowerPort := ToLower portName in
  existsb (fun app => Contains lowerPort app) ephemeralApps.

(** What the retry loop meets at its [attempt]-th turn: whether the
    source port is there, and what [connectPorts] returns if called. *)
Record LinkWorld : Type := {
  port_present : nat -> bool;
  link_result : nat -> option error
}.

(** What the loop does, in order. *)
Inductive Action : Type :=
| CheckPort (attempt : nat)
| Connect (attempt : nat)
| Sleep (milliseconds : Z).

(** The turns of [for attempt := 1; attempt <= maxRetries; attempt++],
    by the number of turns left; [true] is the early [return nil]. *)
Fixpoint retry_loop (w : LinkWorld) (maxRetries : nat) (retryDelay : Z)
  (left attempt : nat) : list Action * bool :=
  match left with
  | O => ([], false)
  | S left' =>
      let pause := if (attempt <? maxRetries)%nat then [Sleep retryDelay] else [] in
      let next := retry_loop w maxRetries retryDelay left' (S attempt) in
      if port_present w attempt then
        match link_result w attempt with
        | None => ([CheckPort attempt; Connect attempt], true)
        | Some _ =>
            (CheckPort attempt :: Connect attempt :: pause ++ next.1, next.2)
        end
      else (CheckPort attempt :: pause ++ next.1, next.2)
  end.

Definition retry_policy (sourcePort : string) : nat * Z :=
  if isEphemeralPort sourcePort then (15%nat, 1000%Z) else (5%nat, 500%Z).

Definition ConnectPortsWithRetry (w : LinkWorld) (sourcePort destPort : string)
  : list Action * option error :=
  let '(maxRetries, retryDelay) := retry_policy sourcePort in
  let run := retry_loop w maxRetries retryDelay maxRetries 1 in
  if run.2 then (run.1, None)
  else (run.1, Some ("failed to connect " +:+ sourcePort +:+ " to " +:+ destPort
                       +:+ " after " +:+ itoa maxRetries +:+ " attempts")).

End PipeWire.

(** ** recorder.go and pipewire_backend.go: the capture state machine *)

Module Recorder.
Import GoStrings PipeWire.

Inductive Status : Type :=
| StatusStandby
| StatusReady
| StatusRecording
| StatusError.

#[global] Instance Status_eq_dec : EqDecision Status.
Proof. solve_decision. Defined.

(** The string behind each [Status] constant. *)
Definition Status_string (s : Status) : string :=
  match s with
  | StatusStandby => "STANDBY"
  | StatusReady => "READY"
  | StatusRecording => "RECORDING"
  | StatusError => "ERROR"
  end.

(** [config.Channel] and [config.Config], with the fields the recorder
    reads. *)
Record Channel : Type := {
  Name : string;
  Sources : list string
}.

Record Config : Type := {
  Channels : list Channel;
  Output_Directory : string;
  Output_Format : string;
  Audio_SampleRate : Z
}.

Record SessionInfo : Type := {
  SongName : string;
  StartTime : Z;
  OutputFile : string;
  ChannelCount : nat;
  ChannelNames : list string
}.

(** The started encoder process, [*exec.Cmd]: its command line. *)
Record Cmd : Type := {
  Args : list string
}.

(** The fields of [PipeWireRecorder] that the operations read and write
    under the mutex. *)
Record PipeWireRecorder : Type := {
  cfg : Config;
  status : Status;
  session : option SessionInfo;
  isRecording : bool;
  ffmpegCmd : option Cmd;
  channelStatusCache : option (gmap string string)
}.

Definition set_status (s : Status) (r : PipeWireRecorder) : PipeWireRecorder :=
  {| cfg := cfg r; status := s; session := session r;
     isRecording := isRecording r; ffmpegCmd := ffmpegCmd r;
     channelStatusCache := channelStatusCache r |}.

Definition set_session (s : option SessionInfo) (r : PipeWireRecorder)
  : PipeWireRecorder :=
  {| cfg := cfg r; status := status r; session := s;
     isRecording := isRecording r; ffmpegCmd := ffmpegCmd r;
     channelStatusCache := channelStatusCache r |}.

Definition set_isRecording (b : bool) (r : PipeWireRecorder) : PipeWireRecorder :=
  {| cfg := cfg r; status := status r; session := session r;
     isRecording := b; ffmpegCmd := ffmpegCmd r;
     channelStatusCache := channelStatusCache r |}.

Definition set_ffmpegCmd (c : option Cmd) (r : PipeWireRecorder) : PipeWireRecorder :=
  {| cfg := cfg r; status := status r; session := session r;
     isRecording := isRecording r; ffmpegCmd := c;
     channelStatusCache := channelStatusCache r |}.

Definition set_channelStatusCache (m : option (gmap string string))
  (r : PipeWireRecorder) : PipeWireRecorder :=
  {| cfg := cfg r; status := status r; session := session r;
     isRecording := isRecording r; ffmpegCmd := ffmpegCmd r;
     channelStatusCache := m |}.

Definition NewPipeWireRecorder (c : Config) : PipeWireRecorder :=
  {| cfg := c; status := StatusStandby; session := None;
     isRecording := false; ffmpegCmd := None; channelStatusCache := None |}.

(** How [cmd.Wait()] ended. [ExitError] is [*exec.ExitError]: its exit
    code ([-1] when killed by a signal) and the text of its
    [ProcessState], if it has one. *)
Inductive WaitError : Type :=
| WaitNil
| ExitError (exitCode : Z) (processState : option string)
| OtherError (msg : string).

Inductive WaitOutcome : Type :=
| Done (err : WaitError)
| TimedOut.

(** The surroundings of one operation, as the operation finds them:
    - [pw_link_io]: the routing graph, as [pw-link -io] prints it;
    - [mkdir_all]: the error of [os.MkdirAll] on the output directory;
    - [time_now]: [time.Now()];
    - [stdout_pipe], [stderr_pipe], [cmd_start]: the errors of
      [cmd.StdoutPipe()], [cmd.StderrPipe()] and [cmd.Start()];
    - [signal_interrupt]: the error of [Process.Signal(os.Interrupt)];
    - [cmd_wait]: how [cmd.Wait()] ends, or that it ran over 5 seconds;
    - [stat_size]: [os.Stat] by path, the size of the file if it is
      there. *)
Record World : Type := {
  pw_link_io : PwLinkOutput;
  mkdir_all : option error;
  time_now : Z;
  stdout_pipe : option error;
  stderr_pipe : option error;
  cmd_start : option error;
  signal_interrupt : option error;
  cmd_wait : WaitOutcome;
  stat_size : string -> option Z
}.

(** Signals sent to the encoder process. *)
Inductive Signal : Type :=
| SIGINT
| SIGKILL.

Definition enabled (source : string) : bool :=
  negb (String.eqb source "") && negb (String.eqb source "disabled").

(** [strings.Contains(err.Error(), "duplicate sources detected")]. *)
Definition is_duplicate_error (e : error) : bool :=
  Contains e "duplicate sources detected".

(** [cleanFileName]. The loop runs over the runes of [name] and keeps
    ASCII ones only; a rune outside ASCII is made of bytes above 0x7f
    alone, so keeping bytes is keeping runes. *)
Definition allowed (c : ascii) : bool :=
  let n := nat_of_ascii c in
  ((97 <=? n) && (n <=? 122) || (65 <=? n) && (n <=? 90)
   || (48 <=? n) && (n <=? 57) || (n =? 32) || (n =? 45) || (n =? 95))%nat.

Fixpoint keep_allowed (name : string) : string :=
  match name with
  | EmptyString => EmptyString
  | String c rest =>
      if allowed c then String c (keep_allowed rest) else keep_allowed rest
  end.

Definition cleanFileName (name : string) : string :=
  ReplaceAll1 (TrimSpace (keep_allowed name)) " " "_".

(** [hasDuplicateSources]. *)
Definition hasDuplicateSources (w : World) (r : PipeWireRecorder) : bool :=
  existsb (fun channel =>
    existsb (fun source =>
      enabled source &&
      match ValidatePort (pw_link_io w) source with
      | Some err => is_duplicate_error err
      | None => false
      end) (Sources channel)) (Channels (cfg r)).

(** The inner loop of [scanChannelStatus], which stops at the first
    source that fails: [(channelAvailable, channelHasDuplicates)]. *)
Fixpoint scan_sources (pw : PwLinkOutput) (sources : list string) : bool * bool :=
  match sources with
  | [] => (true, false)
  | source :: rest =>
      if enabled source then
        match ValidatePort pw source with
        | Some err => (false, is_duplicate_error err)
        | None => scan_sources pw rest
        end
      else scan_sources pw rest
  end.

Definition channel_status (pw : PwLinkOutput) (channel : Channel) : string :=
  let '(channelAvailable, channelHasDuplicates) := scan_sources pw (Sources channel) in
  if channelHasDuplicates then "duplicate"
  else if channelAvailable then "available"
  else "unavailable".

Definition scan_channels (pw : PwLinkOutput) (channels : list Channel)
  : gmap string string :=
  fold_left (fun st channel => <[Name channel := channel_status pw channel]> st)
    channels ∅.

(** [scanChannelStatus]: the fresh mapping, also stored in the cache. *)
Definition scanChannelStatus (w : World) (r : PipeWireRecorder)
  : PipeWireRecorder * gmap string string :=
  let st := scan_channels (pw_link_io w) (Channels (cfg r)) in
  (set_channelStatusCache (Some st) r, st).

(** [GetChannelStatus]. *)
Definition GetChannelStatus (w : World) (r : PipeWireRecorder)
  : PipeWireRecorder * gmap string string :=
  match status r, channelStatusCache r with
  | StatusRecording, Some cache => (r, cache)
  | _, _ => scanChannelStatus w r
  end.

(** The counters of the first loop of [checkAllSourcesAvailable]. *)
Record Tally : Type := {
  validChannels : nat;
  totalChannelsToCheck : nat;
  hasDuplicates : bool
}.

Record ChannelTally : Type := {
  channelHasAllSources : bool;
  channelHasAnySources : bool;
  checked : nat;
  duplicates : bool
}.

Definition check_source (pw : PwLinkOutput) (t : ChannelTally) (source : string)
  : ChannelTally :=
  if enabled source then
    match ValidatePort pw source with
    | Some err =>
        {| channelHasAllSources := false; channelHasAnySources := true;
           checked := S (checked t);
           duplicates := if is_duplicate_error err then true else duplicates t |}
    | None =>
        {| channelHasAllSources := channelHasAllSources t;
           channelHasAnySources := true;
           checked := S (checked t); duplicates := duplicates t |}
    end
  else t.

Definition check_channel (pw : PwLinkOutput) (t : Tally) (channel : Channel) : Tally :=
  let ct := fold_left (check_source pw) (Sources channel)
              {| channelHasAllSources := true; channelHasAnySources := false;
                 checked := totalChannelsToCheck t; duplicates := hasDuplicates t |} in
  {| validChannels :=
       if channelHasAnySources ct && channelHasAllSources ct
       then S (validChannels t) else validChannels t;
     totalChannelsToCheck := checked ct;
     hasDuplicates := duplicates ct |}.

(** The second loop: the channels with a source that is not disabled. *)
Definition totalChannelsWithSources (channels : list Channel) : nat :=
  fold_left (fun n channel => if existsb enabled (Sources channel) then S n else n)
    channels 0%nat.

(** [checkAllSourcesAvailable]. *)
Definition checkAllSourcesAvailable (w : World) (r : PipeWireRecorder) : bool :=
  let t := fold_left (check_channel (pw_link_io w)) (Channels (cfg r))
             {| validChannels := 0; totalChannelsToCheck := 0; hasDuplicates := false |} in
  if hasDuplicates t then false
  else (0 <? validChannels t)%nat
       && (validChannels t =? totalChannelsWithSources (Channels (cfg r)))%nat.

(** [buildAndStartFFmpeg]: the command line, one JACK input per
    channel. *)
Definition jack_input (channel : Channel) : list string :=
  let channelCount := length (Sources channel) in
  let channelCount := if (channelCount =? 0)%nat then 1%nat else channelCount in
  let channelCount := if (2 <? channelCount)%nat then 2%nat else channelCount in
  ["-f"; "jack"; "-channels"; itoa channelCount;
   "-i"; "jamcapture_" +:+ Name channel].

Definition track_map (i : nat) (channel : Channel) : list string :=
  ["-map"; itoa i +:+ ":0";
   "-metadata:s:a:" +:+ itoa i; "title=" +:+ Name channel].

Definition ffmpeg_args (c : Config) (channels : list Channel) (outputFile : string)
  : list string :=
  (["pw-jack"; "ffmpeg"]
     ++ concat (map jack_input channels)
     ++ ["-ar"; ztoa (Audio_SampleRate c)]
     ++ concat (imap track_map channels)
     ++ ["-c:a"; Output_Format c; "-y"; outputFile])%list.

Definition buildAndStartFFmpeg (w : World) (channels : list Channel)
  (outputFile : string) (r : PipeWireRecorder) : PipeWireRecorder * option error :=
  let args := ffmpeg_args (cfg r) channels outputFile in
  match stdout_pipe w with
  | Some err => (r, Some ("failed to create stdout pipe: " +:+ err))
  | None =>
      match stderr_pipe w with
      | Some err => (r, Some ("failed to create stderr pipe: " +:+ err))
      | None =>
          match cmd_start w with
          | Some err => (r, Some ("failed to start FFmpeg: " +:+ err))
          | None => (set_ffmpegCmd (Some {| Args := args |}) r, None)
          end
      end
  end.

(** The text of an error returned by [cmd.Wait()]. *)
Definition WaitError_string (e : WaitError) : string :=
  match e with
  | WaitNil => ""
  | ExitError _ (Some st) => st
  | ExitError _ None => "<nil>"
  | OtherError msg => msg
  end.

(** Which ends of [cmd.Wait()] count as a clean stop. *)
Definition clean_exit (e : WaitError) : bool :=
  match e with
  | WaitNil => true
  | ExitError exitCode processState =>
      if (exitCode =? 255)%Z then true
      else match processState with
           | Some stateStr =>
               String.eqb stateStr "signal: interrupt"
               || String.eqb stateStr "signal: killed"
           | None => false
           end
  | OtherError _ => false
  end.

(** [stopFFmpeg]: the new state, the signals sent, and the error. A
    started command always has its [Process]. *)
Definition stopFFmpeg (w : World) (r : PipeWireRecorder)
  : PipeWireRecorder * list Signal * option error :=
  match ffmpegCmd r with
  | None => (r, [], None)
  | Some _ =>
      let sent := match signal_interrupt w with
                  | Some _ => [SIGINT; SIGKILL]
                  | None => [SIGINT]
                  end in
      match cmd_wait w with
      | Done err =>
          let r := set_ffmpegCmd None r in
          if clean_exit err then (r, sent, None)
          else (r, sent, Some ("FFmpeg process failed: " +:+ WaitError_string err))
      | TimedOut => (set_ffmpegCmd None r, (sent ++ [SIGKILL])%list, None)
      end
  end.

(** [validateOutputFile]. *)
Definition validateOutputFile (w : World) (r : PipeWireRecorder) : option error :=
  match session r with
  | None => Some "no session info available"
  | Some s =>
      match stat_size w (OutputFile s) with
      | None => Some ("recording file not found: " +:+ OutputFile s)
      | Some size =>
          if (size <? 1024)%Z
          then Some ("recording failed: file too small (" +:+ ztoa size +:+ " bytes)")
          else None
      end
  end.

Section Operations.

(** [filepath.Join] of the Go library, on two elements. *)
Context (filepath_Join : string -> string -> string).

Definition channel_label (ch : Channel) : string :=
  Name ch +:+ ":[" +:+ Join (Sources ch) "," +:+ "]".

(** [StartReady]. The monitor it starts before it returns, on both the
    duplicate and the success path, is [monitorTick] and [monitorTimeout]
    below. *)
Definition StartReady (w : World) (songName : string) (r : PipeWireRecorder)
  : PipeWireRecorder * option error :=
  if negb (bool_decide (status r = StatusStandby))
     && negb (bool_decide (status r = StatusError))
  then (r, Some ("can only start ready from standby or error state, current: "
                   +:+ Status_string (status r)))
  else if String.eqb songName ""
  then (r, Some "song name is required")
  else
    match mkdir_all w with
    | Some err =>
        (set_status StatusError r,
         Some ("failed to create output directory: " +:+ err))
    | None =>
        let cleanName := cleanFileName songName in
        let outputFile :=
          filepath_Join (Output_Directory (cfg r)) (cleanName +:+ ".mkv") in
        let enabledChannels := Channels (cfg r) in
        let channelNames := map channel_label enabledChannels in
        if hasDuplicateSources w r
        then (set_status StatusError r,
              Some "duplicate audio sources detected - please close conflicting applications before starting recording")
        else
          let r := set_session
                     (Some {| SongName := songName;
                              StartTime := time_now w;
                              OutputFile := outputFile;
                              ChannelCount := length enabledChannels;
                              ChannelNames := channelNames |}) r in
          (set_status StatusReady r, None)
    end.

(** [StartRecording]. The worker it starts connects the ports with
    [ConnectPortsWithRetry] and writes no field of the recorder. *)
Definition StartRecording (w : World) (r : PipeWireRecorder)
  : PipeWireRecorder * option error :=
  if negb (bool_decide (status r = StatusReady))
  then (r, Some ("can only start recording from ready state, current: "
                   +:+ Status_string (status r)))
  else
    match session r with
    | None => (r, Some "no session prepared, call StartReady first")
    | Some s =>
        let r := (scanChannelStatus w r).1 in
        let enabledChannels := Channels (cfg r) in
        let '(r, err) := buildAndStartFFmpeg w enabledChannels (OutputFile s) r in
        match err with
        | Some e => (set_status StatusError r, Some ("failed to start FFmpeg: " +:+ e))
        | None => (set_status StatusRecording (set_isRecording true r), None)
        end
    end.

(** [Stop]. It never writes [r.session]. *)
Definition Stop (w : World) (r : PipeWireRecorder)
  : PipeWireRecorder * option error :=
  if negb (bool_decide (status r = StatusRecording))
  then (r, Some "no recording in progress")
  else
    let r := set_isRecording false r in
    let '(r, _, err) := stopFFmpeg w r in
    match err with
    | Some e => (set_status StatusError r, Some ("failed to stop FFmpeg: " +:+ e))
    | None =>
        match validateOutputFile w r with
        | Some e => (set_status StatusError r, Some e)
        | None => (set_status StatusStandby r, None)
        end
    end.

(** [CancelReady]. *)
Definition CancelReady (r : PipeWireRecorder) : PipeWireRecorder * option error :=
  if negb (bool_decide (status r = StatusReady))
  then (r, Some ("can only cancel from ready state, current: "
                   +:+ Status_string (status r)))
  else (set_session None (set_status StatusStandby r), None).

(** [GetStatus]: the status and a copy of the session. *)
Definition GetStatus (r : PipeWireRecorder) : Status * option SessionInfo :=
  (status r, session r).

(** [Cleanup] kills the encoder process, if any, and leaves every field
    as it is. *)
Definition Cleanup (r : PipeWireRecorder) : PipeWireRecorder * option error :=
  (r, None).

(** The monitor of [startSourceMonitoring], when its 30 seconds are
    over. *)
Definition monitorTimeout (r : PipeWireRecorder) : PipeWireRecorder :=
  if bool_decide (status r = StatusReady) || bool_decide (status r = StatusError)
  then set_session None (set_status StatusStandby r)
  else r.

(** The end of a monitor tick: promotion when every source is there.
    The boolean tells whether the monitor returns. *)
Definition tick_promote (w : World) (r : PipeWireRecorder)
  : PipeWireRecorder * bool :=
  if checkAllSourcesAvailable w r then
    if bool_decide (status r = StatusReady) then
      let '(r, err) := StartRecording w r in
      match err with
      | Some _ => (set_status StatusError r, true)
      | None => (r, true)
      end
    else (r, false)
  else (r, false).

(** One tick of the monitor, run to its end: [w_dup] is what
    [hasDuplicateSources] sees, [w] what the rest of the tick sees. The
    source takes the mutex anew for each read and write of the tick; here
    no other call comes in between. *)
Definition monitorTick (w_dup w : World) (r : PipeWireRecorder)
  : PipeWireRecorder * bool :=
  let currentStatus := status r in
  let hasDuplicates := hasDuplicateSources w_dup r in
  match currentStatus with
  | StatusReady =>
      if hasDuplicates
      then (set_session None (set_status StatusStandby r), true)
      else tick_promote w r
  | StatusError =>
      if hasDuplicates then tick_promote w r
      else tick_promote w (set_session None (set_status StatusStandby r))
  | _ => tick_promote w r
  end.

(** One step of the recorder: a call of its interface or a move of the
    monitor, each run to its end. *)
Inductive step (r : PipeWireRecorder) : PipeWireRecorder -> Prop :=
| step_StartReady w songName : step r (StartReady w songName r).1
| step_StartRecording w : step r (StartRecording w r).1
| step_Stop w : step r (Stop w r).1
| step_CancelReady : step r (CancelReady r).1
| step_GetChannelStatus w : step r (GetChannelStatus w r).1
| step_Cleanup : step r (Cleanup r).1
| step_monitorTick w_dup w : step r (monitorTick w_dup w r).1
| step_monitorTimeout : step r (monitorTimeout r).

(** The states a recorder made by [NewPipeWireRecorder] can be in. *)
Definition reachable (c : Config) (r : PipeWireRecorder) : Prop :=
  rtc step (NewPipeWireRecorder c) r.

End Operations.

End Recorder.

(** ** The vocabulary of the statements *)

Module Spec.
Import GoStrings PipeWire Recorder.

(** An attempt of the retry loop that ends it: the port is there and
    the connection goes through. *)
Definition connects (w : LinkWorld) (attempt : nat) : bool :=
  port_present w attempt && bool_decide (link_result w attempt = None).

(** The first attempt among [1 .. maxRetries] that connects. *)
Definition first_connecting (w : LinkWorld) (maxRetries : nat) : option nat :=
  List.find (connects w) (seq 1 maxRetries).

(** The attempts the loop makes: up to the first that connects, all of
    them when none does. *)
Definition attempts_made (w : LinkWorld) (maxRetries : nat) : nat :=
  default maxRetries (first_connecting w maxRetries).

(** One attempt: the existence check, then the connection only if the
    port was found. *)
Definition attempt_actions (w : LinkWorld) (attempt : nat) : list Action :=
  CheckPort attempt :: (if port_present w attempt then [Connect attempt] else []).

(** [n] attempts in a row with a pause between two of them. *)
Fixpoint attempts_from (w : LinkWorld) (retryDelay : Z) (n attempt : nat)
  : list Action :=
  match n with
  | O => []
  | S O => attempt_actions w attempt
  | S n' =>
      attempt_actions w attempt ++ Sleep retryDelay
        :: attempts_from w retryDelay n' (S attempt)
  end.




(** The characters a file name keeps: the ASCII letters and digits,
    the space, the hyphen and the underscore. *)
Definition kept_alphabet : list ascii :=
  list_ascii_of_string
    "abcdefghijklmnopqrstuvwxyzABCDEFGHIJKLMNOPQRSTUVWXYZ0123456789 -_".

Definition kept (c : ascii) : bool := existsb (Ascii.eqb c) kept_alphabet.

Fixpoint drop_while {A : Type} (P : A -> bool) (l : list A) : list A :=
  match l with
  | [] => []
  | x :: l' => if P x then drop_while P l' else l
  end.

(** White space removed at both ends. *)
Definition strip (l : list ascii) : list ascii :=
  rev (drop_while is_space (rev (drop_while is_space l))).

(** The sanitised song name, in the words of the specification: keep the
    allowed characters, trim, turn the spaces left into underscores. *)
Definition sanitize (name : list ascii) : list ascii :=
  map (fun c => if Ascii.eqb c " " then "_"%char else c)
    (strip (List.filter kept name)).

(** A path join for a directory that is not empty and already clean,
    where [filepath.Join] only puts the separator in. *)
Definition join_clean (dir file : string) : string := dir +:+ "/" +:+ file.

(** Sample surroundings and states for the examples. *)
Definition quiet_world (lines : list string) : World :=
  {| pw_link_io := PwLines lines; mkdir_all := None; time_now := 0;
     stdout_pipe := None; stderr_pipe := None; cmd_start := None;
     signal_interrupt := None; cmd_wait := Done (ExitError 255 (Some "exit status 255"));
     stat_size := fun _ => Some 4096%Z |}.

Definition with_wait (o : WaitOutcome) (w : World) : World :=
  {| pw_link_io := pw_link_io w; mkdir_all := mkdir_all w; time_now := time_now w;
     stdout_pipe := stdout_pipe w; stderr_pipe := stderr_pipe w;
     cmd_start := cmd_start w; signal_interrupt := signal_interrupt w;
     cmd_wait := o; stat_size := stat_size w |}.

Definition guitar_config : Config :=
  {| Channels := [ {| Name := "guitar"; Sources := ["dev:1"] |} ];
     Output_Directory := "out"; Output_Format := "flac";
     Audio_SampleRate := 48000 |}.

(** The recorder after [StartReady "song"] and the promotion by the
    monitor, with the port "dev:1" in the graph. *)
Definition recording_guitar : PipeWireRecorder :=
  (StartRecording (quiet_world ["dev:1"])
     (StartReady join_clean (quiet_world ["dev:1"]) "song"
        (NewPipeWireRecorder guitar_config)).1).1.

(** The state [StartReady] builds when it accepts a song name. *)
Definition ready_state (filepath_Join : string -> string -> string)
  (w : World) (songName : string) (r : PipeWireRecorder) : PipeWireRecorder :=
  set_status StatusReady
    (set_session
       (Some {| SongName := songName;
                StartTime := time_now w;
                OutputFile :=
                  filepath_Join (Output_Directory (cfg r))
                    (cleanFileName songName +:+ ".mkv");
                ChannelCount := length (Channels (cfg r));
                ChannelNames := map channel_label (Channels (cfg r)) |}) r).

(** A source is connectable when its validation finds no fault. *)
Definition connectable (w : World) (source : string) : Prop :=
  ValidatePort (pw_link_io w) source = None.

(** The channel declares a source that is neither empty nor disabled. *)
Definition declares_source (channel : Channel) : Prop :=
  exists source, In source (Sources channel) /\ enabled source = true.

Definition fully_connectable (w : World) (channel : Channel) : Prop :=
  forall source, In source (Sources channel) -> connectable w source.

(** Some enabled source fails validation with the duplicate error. *)
Definition duplicate_detected (w : World) (r : PipeWireRecorder) : Prop :=
  exists channel source err,
    In channel (Channels (cfg r)) /\ In source (Sources channel)
    /\ enabled source = true
    /\ ValidatePort (pw_link_io w) source = Some err
    /\ is_duplicate_error err = true.

(** The condition for promotion as the claim words it. *)
Definition promotion_condition (w : World) (r : PipeWireRecorder) : Prop :=
  (forall channel, In channel (Channels (cfg r)) ->
     declares_source channel -> fully_connectable w channel)
  /\ ~ duplicate_detected w r.

(** A configuration in which no channel has a source to wait for. *)
Definition idle_config : Config :=
  {| Channels := [ {| Name := "guitar"; Sources := ["disabled"] |};
                   {| Name := "spare"; Sources := [] |} ];
     Output_Directory := "out"; Output_Format := "flac";
     Audio_SampleRate := 48000 |}.

Definition ready_idle : PipeWireRecorder :=
  (StartReady join_clean (quiet_world []) "song" (NewPipeWireRecorder idle_config)).1.

(** The outcome of validation as a boolean. *)
Definition valid_source (pw : PwLinkOutput) (source : string) : bool :=
  match ValidatePort pw source with
  | None => true
  | Some _ => false
  end.

Definition duplicate_source (pw : PwLinkOutput) (source : string) : bool :=
  enabled source &&
  match ValidatePort pw source with
  | Some err => is_duplicate_error err
  | None => false
  end.

(** A channel counts as valid when it declares a source and all its
    sources validate. *)
Definition valid_channel (pw : PwLinkOutput) (channel : Channel) : bool :=
  existsb enabled (Sources channel) && forallb (valid_source pw) (Sources channel).

(** One stereo channel, one channel without sources, one switched
    off. *)
Definition stereo_config : Config :=
  {| Channels := [ {| Name := "backing"; Sources := ["app:left"; "app:right"] |};
                   {| Name := "spare"; Sources := [] |};
                   {| Name := "off"; Sources := ["disabled"; ""] |} ];
     Output_Directory := "out"; Output_Format := "flac";
     Audio_SampleRate := 48000 |}.

(** What a tick of the monitor does when it promotes. *)
Definition auto_start (w : World) (r : PipeWireRecorder) : PipeWireRecorder * bool :=
  let '(r', err) := StartRecording w r in
  match err with
  | Some _ => (set_status StatusError r', true)
  | None => (r', true)
  end.


(** What makes it inductive: there is an encoder handle in status
    Recording only. *)
Definition handle_invariant (r : PipeWireRecorder) : Prop :=
  (status r = StatusRecording -> is_Some (ffmpegCmd r) /\ is_Some (session r))
  /\ (status r <> StatusRecording -> ffmpegCmd r = None)
  /\ (status r = StatusReady -> is_Some (session r)).

(** The cache holds nothing, or a scan of the configured channels. *)
Definition cache_invariant (r : PipeWireRecorder) : Prop :=
  forall m, channelStatusCache r = Some m ->
            exists pw, m = scan_channels pw (Channels (cfg r)).

Definition invariant (c : Config) (r : PipeWireRecorder) : Prop :=
  cfg r = c /\ handle_invariant r /\ cache_invariant r.

(** The channel of that name which is last in the configuration. *)
Definition last_named (name : string) (channels : list Channel) : option Channel :=
  last (List.filter (fun ch => String.eqb (Name ch) name) channels).

(** The first source of the channel that fails validation. *)
Definition first_failing (pw : PwLinkOutput) (channel : Channel) : option string :=
  List.find (fun source => negb (valid_source pw source)) (Sources channel).

(** A channel whose first source is missing and whose second source is
    there twice. *)
Definition mixed_config : Config :=
  {| Channels := [ {| Name := "backing"; Sources := ["gone:1"; "twice:1"] |} ];
     Output_Directory := "out"; Output_Format := "flac";
     Audio_SampleRate := 48000 |}.

(** Proof steps shared by the invariant lemmas: decide the status tests of
    an operation, and close an invariant goal after the record fields are
    computed. *)
Ltac decide_status :=
  repeat match goal with
         | |- context [bool_decide (?a = ?b)] =>
             let v := eval vm_compute in (bool_decide (a = b)) in
             change (bool_decide (a = b)) with v
         end;
  cbn [negb andb orb].

Ltac split_status r :=
  let Hst := fresh "Hst" in
  destruct (status r) eqn:Hst; decide_status.

Ltac crush_invariant :=
  unfold invariant, handle_invariant, cache_invariant in *;
  cbn [cfg status session ffmpegCmd channelStatusCache isRecording
       set_status set_session set_isRecording set_ffmpegCmd
       set_channelStatusCache fst snd] in *;
  repeat split; intros; try discriminate; try congruence; eauto;
  try (match goal with
       | H : Some _ = Some _ |- _ => injection H as <-; eauto
       end);
  intuition (try congruence; try discriminate; eauto).

End Spec.

(** ** pipewire_backend.go: the worker that connects the ports *)

Module Worker.
Import GoStrings PipeWire Recorder.

(** [waitForSpecificPort]: [polls] is the routing graph at each turn of
    the loop, one turn every 100 ms for as long as the deadline is ahead. *)
Definition waitForSpecificPort (polls : list PwLinkOutput) (portName : string)
  : option error :=
  if existsb (fun pw => bool_decide (ValidatePort pw portName = None)) polls
  then None
  else Some ("timeout waiting for JACK port: " +:+ portName).

(** What the worker meets: the polls of its [k]-th wait for a port. *)
Record WorkerWorld : Type := {
  wait_polls : nat -> list PwLinkOutput
}.

(** What the worker does, in order. *)
Inductive WorkerAction : Type :=
| WaitPort (destPort : string) (found : bool)
| ConnectPorts (source destPort : string).

(** [fmt.Sprintf("jamcapture_%s:input_%d", channel.Name, n)]. *)
Definition input_port (name : string) (n : nat) : string :=
  "jamcapture_" +:+ name +:+ ":input_" +:+ itoa n.

Definition wait_found (ww : WorkerWorld) (waits : nat) (destPort : string) : bool :=
  bool_decide (waitForSpecificPort (wait_polls ww waits) destPort = None).

(** The branch for a channel with at most one source; [waits] counts the
    waits made so far. *)
Definition connect_mono (ww : WorkerWorld) (waits : nat) (channel : Channel)
  : list WorkerAction * nat :=
  let destPort := input_port (Name channel) 1 in
  if negb (wait_found ww waits destPort)
  then ([WaitPort destPort false], S waits)
  else
    match Sources channel with
    | source :: _ =>
        if enabled source
        then ([WaitPort destPort true; ConnectPorts source destPort], S waits)
        else ([WaitPort destPort true], S waits)
    | [] => ([WaitPort destPort true], S waits)
    end.

(** The loop over the sources of a channel with two sources or more;
    [i] is the index of the first of [sources]. *)
Fixpoint connect_stereo (ww : WorkerWorld) (waits : nat) (name : string)
  (i : nat) (sources : list string) : list WorkerAction * nat :=
  match sources with
  | [] => ([], waits)
  | source :: rest =>
      if (2 <=? i)%nat then ([], waits)
      else if negb (enabled source)
      then connect_stereo ww waits name (S i) rest
      else
        let destPort := input_port name (S i) in
        let next := connect_stereo ww (S waits) name (S i) rest in
        if negb (wait_found ww waits destPort)
        then (WaitPort destPort false :: next.1, next.2)
        else (WaitPort destPort true :: ConnectPorts source destPort :: next.1, next.2)
  end.

Definition connect_channel (ww : WorkerWorld) (waits : nat) (channel : Channel)
  : list WorkerAction * nat :=
  if (length (Sources channel) <=? 1)%nat
  then connect_mono ww waits channel
  else connect_stereo ww waits (Name channel) 0 (Sources channel).

(** [recordingWorker], from its first second of sleep to the wait for the
    stop channel: the waits and connections over the channels. *)
Fixpoint worker_channels (ww : WorkerWorld) (waits : nat) (channels : list Channel)
  : list WorkerAction :=
  match channels with
  | [] => []
  | channel :: rest =>
      let run := connect_channel ww waits channel in
      (run.1 ++ worker_channels ww run.2 rest)%list
  end.

Definition recordingWorker (ww : WorkerWorld) (enabledChannels : list Channel)
  : list WorkerAction :=
  worker_channels ww 0 enabledChannels.

End Worker.

(** ** backend.go and service.go: the callers of the recorder *)

Module Service.
Import GoStrings PipeWire Recorder.

(** [PipeWireBackend.ValidateSource]. *)
Definition ValidateSource (out : PwLinkOutput) (source : string) : option error :=
  if String.eqb source "" || String.eqb source "disabled" then None
  else ValidatePort out source.

(** [JamCaptureService], with its recorder and its error text. *)
Record JamCaptureService : Type := {
  recorder : PipeWireRecorder;
  lastError : string
}.

Definition New (c : Config) : JamCaptureService :=
  {| recorder := NewPipeWireRecorder c; lastError := "" |}.

Definition setLastError (err : string) (s : JamCaptureService) : JamCaptureService :=
  {| recorder := recorder s; lastError := err |}.

Definition clearLastError (s : JamCaptureService) : JamCaptureService :=
  {| recorder := recorder s; lastError := "" |}.

Definition GetLastError (s : JamCaptureService) : string := lastError s.

Definition set_recorder (r : PipeWireRecorder) (s : JamCaptureService)
  : JamCaptureService :=
  {| recorder := r; lastError := lastError s |}.

(** The helper [cleanFileName] of the service: letters, digits and spaces
    only. *)
Definition allowed (c : ascii) : bool :=
  let n := nat_of_ascii c in
  ((97 <=? n) && (n <=? 122) || (65 <=? n) && (n <=? 90)
   || (48 <=? n) && (n <=? 57) || (n =? 32))%nat.

Fixpoint keep_allowed (name : string) : string :=
  match name with
  | EmptyString => EmptyString
  | String c rest =>
      if allowed c then String c (keep_allowed rest) else keep_allowed rest
  end.

Definition cleanFileName (name : string) : string :=
  ReplaceAll1 (TrimSpace (keep_allowed name)) " " "_".

Definition getOutputExtension (s : JamCaptureService) : string :=
  let format := Output_Format (cfg (recorder s)) in
  if String.eqb format "flac" then "flac"
  else if String.eqb format "wav" then "wav"
  else if String.eqb format "mp3" then "mp3"
  else "flac".

Record SongInfo : Type := {
  OutputMKV : string;
  OutputMixed : string;
  CleanName : string
}.

(** [GetSongInfo]; the paths are made with [fmt.Sprintf("%s/%s.mkv", ...)]. *)
Definition GetSongInfo (s : JamCaptureService) (songName : string) : SongInfo :=
  let cleanName := cleanFileName songName in
  let dir := Output_Directory (cfg (recorder s)) in
  {| OutputMKV := dir +:+ "/" +:+ cleanName +:+ ".mkv";
     OutputMixed := dir +:+ "/" +:+ cleanName +:+ "." +:+ getOutputExtension s;
     CleanName := cleanName |}.

Section Operations.

Context (filepath_Join : string -> string -> string).

(** [JamCaptureService.StartReady]. *)
Definition StartReady (w : World) (songName : string) (s : JamCaptureService)
  : JamCaptureService * option error :=
  let s := clearLastError s in
  let '(r, err) := Recorder.StartReady filepath_Join w songName (recorder s) in
  let s := set_recorder r s in
  match err with
  | Some e => (setLastError ("Failed to start recording: " +:+ e) s, Some e)
  | None => (s, None)
  end.

(** [JamCaptureService.CancelReady]. *)
Definition CancelReady (s : JamCaptureService) : JamCaptureService * option error :=
  let '(r, err) := Recorder.CancelReady (recorder s) in
  (set_recorder r s, err).

(** [JamCaptureService.StopRecording]. *)
Definition StopRecording (w : World) (s : JamCaptureService)
  : JamCaptureService * option error :=
  let '(r, err) := Recorder.Stop w (recorder s) in
  let s := set_recorder r s in
  match err with
  | Some e => (setLastError ("Failed to stop recording: " +:+ e) s, Some e)
  | None => (clearLastError s, None)
  end.

(** [JamCaptureService.GetRecordingStatus]: the status and the session of
    the recorder; the error text is kept in status ERROR only. *)
Definition GetRecordingStatus (s : JamCaptureService)
  : JamCaptureService * (Status * option SessionInfo) :=
  let '(status, session) := GetStatus (recorder s) in
  let s := match status with
           | StatusError => s
           | _ => clearLastError s
           end in
  (s, (status, session)).

End Operations.

End Service.

(** ** The vocabulary of the further statements *)

Module Spec2.
Import GoStrings PipeWire Recorder Spec.


(** The connections the worker asks for. *)
Definition connections_of (l : list Worker.WorkerAction) : list (string * string) :=
  omap (fun a => match a with
                 | Worker.ConnectPorts source destPort => Some (source, destPort)
                 | _ => None
                 end) l.

(** The number of JACK ports the encoder opens for a channel. *)
Definition encoder_inputs (channel : Channel) : nat :=
  let n := length (Sources channel) in
  if (n =? 0)%nat then 1%nat else if (2 <? n)%nat then 2%nat else n.

(** The characters of a sanitised file name. *)
Definition name_char (c : ascii) : bool :=
  existsb (Ascii.eqb c)
    (list_ascii_of_string
       "abcdefghijklmnopqrstuvwxyzABCDEFGHIJKLMNOPQRSTUVWXYZ0123456789-_").

(** The name without its hyphens and underscores. *)
Fixpoint drop_marks (name : string) : string :=
  match name with
  | EmptyString => EmptyString
  | String c rest =>
      if Ascii.eqb c "-" || Ascii.eqb c "_" then drop_marks rest
      else String c (drop_marks rest)
  end.

(** The session [StartReady] builds for a song name. *)
Definition session_for (filepath_Join : string -> string -> string)
  (c : Config) (s : SessionInfo) : Prop :=
  SongName s <> ""
  /\ OutputFile s
     = filepath_Join (Output_Directory c) (cleanFileName (SongName s) +:+ ".mkv")
  /\ ChannelCount s = length (Channels c)
  /\ ChannelNames s = map channel_label (Channels c).


(** A world in which the encoder cannot be started. *)
Definition no_encoder_world : World :=
  {| pw_link_io := PwLines ["dev:1"]; mkdir_all := None;
     time_now := 0; stdout_pipe := None; stderr_pipe := None;
     cmd_start := Some "exec: pw-jack: executable file not found";
     signal_interrupt := None; cmd_wait := Done WaitNil;
     stat_size := fun _ => None |}.

(** The recorder after [StartReady "song"], waiting for its sources. *)
Definition ready_guitar : PipeWireRecorder :=
  (StartReady join_clean (quiet_world ["dev:1"]) "song"
     (NewPipeWireRecorder guitar_config)).1.

(** The recorder after [StartReady "song"] met a duplicated "dev:1". *)
Definition error_guitar : PipeWireRecorder :=
  (StartReady join_clean (quiet_world ["dev:1"; "dev:1"]) "song"
     (NewPipeWireRecorder guitar_config)).1.

(** A worker for which every port of the encoder is there at the first
    poll. *)
Definition prompt_worker : Worker.WorkerWorld :=
  {| Worker.wait_polls := fun _ =>
       [PwLines ["jamcapture_backing:input_1"; "jamcapture_backing:input_2";
                 "jamcapture_spare:input_1"; "jamcapture_off:input_1";
                 "jamcapture_off:input_2"]] |}.

(** The recording flag says what the status says. *)
Definition flag_invariant (r : PipeWireRecorder) : Prop :=
  isRecording r = true <-> status r = StatusRecording.

(** A session, when there is one, is one [StartReady] built for the
    configuration. *)
Definition session_invariant (filepath_Join : string -> string -> string)
  (c : Config) (r : PipeWireRecorder) : Prop :=
  forall s, session r = Some s -> session_for filepath_Join c s.

Definition more_invariant (filepath_Join : string -> string -> string)
  (c : Config) (r : PipeWireRecorder) : Prop :=
  cfg r = c /\ flag_invariant r /\ session_invariant filepath_Join c r.

(** Closes the goals of [more_invariant] once the fields are computed. *)
Ltac crush_more :=
  unfold more_invariant, flag_invariant, session_invariant in *;
  cbn [cfg status session ffmpegCmd channelStatusCache isRecording
       set_status set_session set_isRecording set_ffmpegCmd
       set_channelStatusCache fst snd] in *;
  intuition (try congruence; try discriminate; eauto).

End Spec2.

(** ** The port directory *)

Module PipeWireFacts.
Import GoStrings PipeWire Recorder Spec.

Lemma findPortDuplicatesInList_length (portName : string) (allPorts : list string) :
  length (findPortDuplicatesInList portName allPorts)
  = count_occ string_dec allPorts portName.
Proof.
  unfold findPortDuplicatesInList.
  induction allPorts as [|port rest IH]; simpl; [reflexivity|].
  destruct (String.eqb_spec port portName) as [->|Hne].
  - destruct (string_dec portName portName); [simpl; lia | congruence].
  - destruct (string_dec port portName); [congruence | exact IH].
Qed.

Lemma findPortDuplicatesInList_all_equal (portName : string) (allPorts : list string) :
  Forall (fun port => port = portName) (findPortDuplicatesInList portName allPorts).
Proof.
  unfold findPortDuplicatesInList. apply Forall_forall. intros port Hin.
  apply list_elem_of_In in Hin. apply filter_In in Hin as [_ Heq].
  by apply String.eqb_eq.
Qed.

Lemma err_duplicates_is_duplicate_error (portName : string) (dups : list string) :
  is_duplicate_error (err_duplicates portName dups) = true.
Proof. reflexivity. Qed.

(** A port that is there: validation fails exactly when its name is
    listed more than once, and then with the duplicate error. *)
Lemma ValidatePort_present (lines : list string) (portName : string) :
  enabled portName = true ->
  portExists (PwLines lines) portName = true ->
  ValidatePort (PwLines lines) portName
  = if (1 <? count_occ string_dec (List.filter is_port_line lines) portName)%nat
    then Some (err_duplicates portName
                 (findPortDuplicatesInList portName (List.filter is_port_line lines)))
    else None.
Proof.
  intros Hen Hex. unfold ValidatePort, enabled in *.
  apply andb_true_iff in Hen as [H1 H2].
  apply negb_true_iff in H1, H2. rewrite H1, H2, Hex. simpl.
  by rewrite findPortDuplicatesInList_length.
Qed.

(** C4. Duplicates are counted by exact string match: in
    ["A:1"; "A:1"; "A-2:1"] the name "A:1" has 2 matches and fails
    validation with the duplicate error, "A-2:1" has 1 and validates;
    in general the matches of a name are its occurrences in the port
    list, and a port that is present fails validation, with the
    duplicate error, iff its name occurs more than once. *)
Theorem duplicate_detection_exact :
  length (findPortDuplicatesInList "A:1" ["A:1"; "A:1"; "A-2:1"]) = 2%nat
  /\ length (findPortDuplicatesInList "A-2:1" ["A:1"; "A:1"; "A-2:1"]) = 1%nat
  /\ (exists err, ValidatePort (PwLines ["A:1"; "A:1"; "A-2:1"]) "A:1" = Some err
                  /\ is_duplicate_error err = true)
  /\ ValidatePort (PwLines ["A:1"; "A:1"; "A-2:1"]) "A-2:1" = None
  /\ (forall portName allPorts,
        length (findPortDuplicatesInList portName allPorts)
        = count_occ string_dec allPorts portName
        /\ Forall (fun port => port = portName)
             (findPortDuplicatesInList portName allPorts))
  /\ (forall lines allPorts portName,
        ListPorts (PwLines lines) = Ok allPorts ->
        enabled portName = true ->
        portExists (PwLines lines) portName = true ->
        ((exists err, ValidatePort (PwLines lines) portName = Some err
                      /\ is_duplicate_error err = true)
         <-> (1 < count_occ string_dec allPorts portName)%nat)
        /\ (ValidatePort (PwLines lines) portName = None
            <-> (count_occ string_dec allPorts portName <= 1)%nat))
  /\ (forall allPorts portName,
        enabled portName = true ->
        In portName allPorts ->
        ((exists err, TestableValidatePort portName allPorts = Some err
                      /\ is_duplicate_error err = true)
         <-> (1 < count_occ string_dec allPorts portName)%nat)).
Proof.
  split; [reflexivity|]. split; [reflexivity|].
  split; [eexists; split; reflexivity|]. split; [reflexivity|].
  split; [intros; split;
          [apply findPortDuplicatesInList_length
          |apply findPortDuplicatesInList_all_equal]|].
  split.
  - intros lines allPorts portName Hl Hen Hex.
    injection Hl as <-.
    rewrite (ValidatePort_present _ _ Hen Hex).
    destruct (1 <? _)%nat eqn:Hc.
    + apply Nat.ltb_lt in Hc. split; split; intros H.
      * exact Hc.
      * eexists; split; [reflexivity | apply err_duplicates_is_duplicate_error].
      * discriminate.
      * lia.
    + apply Nat.ltb_ge in Hc. split; split; intros H.
      * destruct H as (err & Heq & _). discriminate.
      * lia.
      * exact Hc.
      * reflexivity.
  - intros allPorts portName Hen Hin.
    unfold TestableValidatePort, enabled in *.
    apply andb_true_iff in Hen as [H1 H2].
    apply negb_true_iff in H1, H2. rewrite H1, H2. simpl.
    assert (existsb (fun port => String.eqb port portName) allPorts = true) as ->.
    { apply existsb_exists. exists portName. split; [done | apply String.eqb_refl]. }
    simpl. rewrite findPortDuplicatesInList_length.
    destruct (1 <? _)%nat eqn:Hc.
    + apply Nat.ltb_lt in Hc. split; [done|]. intros _.
      eexists; split; [reflexivity | apply err_duplicates_is_duplicate_error].
    + apply Nat.ltb_ge in Hc. split; [|lia].
      intros (err & Heq & _). discriminate.
Qed.

End PipeWireFacts.

(** ** The connection manager *)

Module ConnectFacts.
Import GoStrings PipeWire Recorder Spec.

Lemma attempts_from_SS w d n a :
  attempts_from w d (S (S n)) a
  = (attempt_actions w a ++ Sleep d :: attempts_from w d (S n) (S a))%list.
Proof. reflexivity. Qed.

Lemma find_seq_range (P : nat -> bool) (a n k : nat) :
  List.find P (seq a n) = Some k -> (a <= k < a + n)%nat /\ P k = true.
Proof.
  intros H. apply find_some in H as [Hin HP]. apply in_seq in Hin. done.
Qed.



(** The loop, turn by turn, against the attempts of the statement. *)
Lemma retry_loop_attempts w maxRetries d left a :
  (a + left = S maxRetries)%nat ->
  retry_loop w maxRetries d left a
  = match List.find (connects w) (seq a left) with
    | Some k => (attempts_from w d (S k - a) a, true)
    | None => (attempts_from w d left a, false)
    end.
Proof.
  revert a. induction left as [|left IH]; intros a Hsum; [reflexivity|].
  cbn [retry_loop seq List.find]. unfold connects at 1.
  destruct (port_present w a) eqn:Hp; cbn [andb].
  - destruct (link_result w a) as [e|] eqn:Hl.
    + rewrite bool_decide_eq_false_2 by done.
      rewrite (IH (S a)) by lia.
      destruct left as [|left'].
      * assert ((a <? maxRetries)%nat = false) as -> by (apply Nat.ltb_ge; lia).
        simpl. unfold attempt_actions. by rewrite Hp.
      * assert ((a <? maxRetries)%nat = true) as -> by (apply Nat.ltb_lt; lia).
        destruct (List.find _ _) as [k|] eqn:Hf; cbn [fst snd].
        -- apply find_seq_range in Hf as [Hk _].
           replace (S k - a)%nat with (S (S (k - S a))) by lia.
           rewrite attempts_from_SS. unfold attempt_actions at 1. rewrite Hp.
           replace (S k - S a)%nat with (S (k - S a)) by lia. reflexivity.
        -- rewrite attempts_from_SS. unfold attempt_actions at 1. by rewrite Hp.
    + rewrite bool_decide_eq_true_2 by done.
      replace (S a - a)%nat with 1%nat by lia.
      simpl. unfold attempt_actions. by rewrite Hp.
  - rewrite (IH (S a)) by lia.
    destruct left as [|left'].
    + assert ((a <? maxRetries)%nat = false) as -> by (apply Nat.ltb_ge; lia).
      simpl. unfold attempt_actions. by rewrite Hp.
    + assert ((a <? maxRetries)%nat = true) as -> by (apply Nat.ltb_lt; lia).
      destruct (List.find _ _) as [k|] eqn:Hf; cbn [fst snd].
      * apply find_seq_range in Hf as [Hk _].
        replace (S k - a)%nat with (S (S (k - S a))) by lia.
        rewrite attempts_from_SS. unfold attempt_actions at 1. rewrite Hp.
        replace (S k - S a)%nat with (S (k - S a)) by lia. reflexivity.
      * rewrite attempts_from_SS. unfold attempt_actions at 1. by rewrite Hp.
Qed.








End ConnectFacts.

(** ** File names *)

Module FileNameFacts.
Import GoStrings PipeWire Recorder Spec.

Lemma allowed_kept (c : ascii) : allowed c = kept c.
Proof.
  destruct c as [b0 b1 b2 b3 b4 b5 b6 b7].
  destruct b0, b1, b2, b3, b4, b5, b6, b7; vm_compute; reflexivity.
Qed.

Lemma keep_allowed_filter (name : string) :
  list_ascii_of_string (keep_allowed name)
  = List.filter kept (list_ascii_of_string name).
Proof.
  induction name as [|c rest IH]; simpl; [reflexivity|].
  rewrite <- allowed_kept. destruct (allowed c); simpl; by rewrite IH.
Qed.

Lemma trim_left_drop_while (s : string) :
  list_ascii_of_string (trim_left s)
  = drop_while is_space (list_ascii_of_string s).
Proof.
  induction s as [|c rest IH]; simpl; [reflexivity|].
  by destruct (is_space c).
Qed.

Lemma drop_while_snoc {A : Type} (P : A -> bool) (l : list A) (x : A) :
  drop_while P (l ++ [x])
  = match drop_while P l with
    | [] => if P x then [] else [x]
    | t => (t ++ [x])%list
    end.
Proof.
  induction l as [|y l IH]; simpl; [by destruct (P x)|].
  destruct (P y); [exact IH | reflexivity].
Qed.

Lemma trim_right_drop_while (s : string) :
  list_ascii_of_string (trim_right s)
  = rev (drop_while is_space (rev (list_ascii_of_string s))).
Proof.
  induction s as [|c rest IH]; [reflexivity|].
  cbn [trim_right list_ascii_of_string rev].
  rewrite drop_while_snoc.
  destruct (trim_right rest) as [|c' t] eqn:Ht.
  - simpl in IH.
    destruct (drop_while is_space (rev (list_ascii_of_string rest))) as [|y l'].
    + by destruct (is_space c).
    + simpl in IH. by destruct (rev l').
  - destruct (drop_while is_space (rev (list_ascii_of_string rest))) as [|y l'].
    + discriminate IH.
    + cbn iota. rewrite rev_app_distr, <- IH. reflexivity.
Qed.

Lemma ReplaceAll1_map (s : string) (old new : ascii) :
  list_ascii_of_string (ReplaceAll1 s old new)
  = map (fun c => if Ascii.eqb c old then new else c) (list_ascii_of_string s).
Proof. induction s as [|c rest IH]; simpl; [reflexivity | by rewrite IH]. Qed.

(** [cleanFileName] is the sanitising of the specification. *)
Lemma cleanFileName_sanitize (name : string) :
  list_ascii_of_string (cleanFileName name)
  = sanitize (list_ascii_of_string name).
Proof.
  unfold cleanFileName, sanitize, strip, TrimSpace.
  by rewrite ReplaceAll1_map, trim_right_drop_while, trim_left_drop_while,
    keep_allowed_filter.
Qed.

Lemma keep_allowed_none (name : string) :
  Forall (fun c => kept c = false) (list_ascii_of_string name) ->
  keep_allowed name = "".
Proof.
  induction name as [|c rest IH]; simpl; [reflexivity|].
  intros H. apply Forall_cons in H as [Hc Hrest].
  rewrite allowed_kept, Hc. by apply IH.
Qed.

End FileNameFacts.

(** ** The operations of the recorder, one by one *)

Module RecorderFacts.
Import GoStrings PipeWire Recorder Spec.

Section WithPath.

Context (filepath_Join : string -> string -> string).

Lemma StartReady_accepts (w : World) (songName : string) (r r' : PipeWireRecorder) :
  StartReady filepath_Join w songName r = (r', None)
  <-> (status r = StatusStandby \/ status r = StatusError)
      /\ songName <> ""
      /\ mkdir_all w = None
      /\ hasDuplicateSources w r = false
      /\ r' = ready_state filepath_Join w songName r.
Proof.
  unfold StartReady, ready_state.
  destruct (String.eqb_spec songName "") as [->|Hname];
    destruct (status r) eqn:Hst; cbn [bool_decide negb andb decide_rel];
    destruct (mkdir_all w) eqn:Hmk; destruct (hasDuplicateSources w r) eqn:Hdup;
    split; try (intros H; discriminate H);
    try (intros (H1 & H2 & H3 & H4 & H5); try done;
         destruct H1 as [H1|H1]; discriminate H1).
  all: try (intros H; injection H as <-; auto 10).
  all: intros (_ & _ & _ & _ & ->); reflexivity.
Qed.

(** C7. [StartReady] turns down a wrong state and an empty song name
    at once: from a status that is neither Standby nor Error, and for
    the empty name from any status, it returns an error and the
    recorder is as it was. *)
Theorem StartReady_rejects_unchanged (w : World) (songName : string)
  (r : PipeWireRecorder) :
  (status r <> StatusStandby /\ status r <> StatusError) \/ songName = "" ->
  exists err, StartReady filepath_Join w songName r = (r, Some err).
Proof.
  intros H. unfold StartReady.
  destruct (status r) eqn:Hst; cbn [bool_decide negb andb decide_rel];
    try (eexists; reflexivity).
  all: destruct H as [[H1 H2]| ->]; try done; eexists; reflexivity.
Qed.

(** C8. [StartRecording] from a status other than Ready, or from Ready
    without a session, returns an error and changes nothing; and once
    it has succeeded the status is Recording, so that a second call
    fails and changes nothing. *)
Theorem StartRecording_rejects_unchanged (w : World) (r : PipeWireRecorder) :
  (status r <> StatusReady \/ session r = None ->
   exists err, StartRecording w r = (r, Some err))
  /\ (forall w1 r1, StartRecording w1 r = (r1, None) ->
        status r1 = StatusRecording
        /\ exists err, StartRecording w r1 = (r1, Some err)).
Proof.
  split.
  - intros H. unfold StartRecording.
    destruct (status r) eqn:Hst; cbn [bool_decide negb decide_rel];
      try (eexists; reflexivity).
    destruct H as [H|H]; [done|]. rewrite H. eexists; reflexivity.
  - intros w1 r1 H. unfold StartRecording in H.
    destruct (status r) eqn:Hst; cbn [bool_decide negb decide_rel] in H;
      try discriminate H.
    destruct (session r) as [s|]; [|discriminate H].
    unfold buildAndStartFFmpeg in H.
    destruct (stdout_pipe w1); [discriminate H|].
    destruct (stderr_pipe w1); [discriminate H|].
    destruct (cmd_start w1); [discriminate H|].
    injection H as <-. split; [reflexivity|].
    eexists; reflexivity.
Qed.

(** C10. When [StartReady] accepts a song name, the session's output
    file is the output directory joined with the sanitised name plus
    ".mkv", the sanitising being: keep the ASCII letters, digits,
    spaces, hyphens and underscores, trim, turn the spaces left into
    underscores; the session's song name is the name as given. From
    the same state "a b" and "a_b" are both accepted and get the same
    output file, and "!!!" is accepted and gets the file name ".mkv",
    as does every name without a kept character. *)
Theorem StartReady_output_file (w : World) (songName : string)
  (r r' : PipeWireRecorder) :
  StartReady filepath_Join w songName r = (r', None) ->
  (exists s, session r' = Some s
             /\ SongName s = songName
             /\ OutputFile s
                = filepath_Join (Output_Directory (cfg r))
                    (cleanFileName songName +:+ ".mkv"))
  /\ list_ascii_of_string (cleanFileName songName)
     = sanitize (list_ascii_of_string songName)
  /\ (Forall (fun c => kept c = false) (list_ascii_of_string songName) ->
      cleanFileName songName +:+ ".mkv" = ".mkv")
  /\ (exists ra rb sa sb,
        StartReady filepath_Join w "a b" r = (ra, None)
        /\ StartReady filepath_Join w "a_b" r = (rb, None)
        /\ session ra = Some sa /\ session rb = Some sb
        /\ SongName sa <> SongName sb
        /\ OutputFile sa = OutputFile sb)
  /\ (exists rc sc,
        StartReady filepath_Join w "!!!" r = (rc, None)
        /\ session rc = Some sc
        /\ SongName sc = "!!!"
        /\ OutputFile sc = filepath_Join (Output_Directory (cfg r)) ".mkv").
Proof.
  intros H. apply StartReady_accepts in H as (Hst & Hname & Hmk & Hdup & ->).
  split; [eexists; split; [reflexivity | split; reflexivity]|].
  split; [apply FileNameFacts.cleanFileName_sanitize|].
  split.
  { intros Hnone. unfold cleanFileName.
    by rewrite (FileNameFacts.keep_allowed_none _ Hnone). }
  split.
  - exists (ready_state filepath_Join w "a b" r),
      (ready_state filepath_Join w "a_b" r).
    eexists; eexists.
    split; [by apply StartReady_accepts|].
    split; [by apply StartReady_accepts|].
    split; [reflexivity|]. split; [reflexivity|].
    split; [discriminate | reflexivity].
  - exists (ready_state filepath_Join w "!!!" r). eexists.
    split; [by apply StartReady_accepts|].
    split; [reflexivity|]. split; reflexivity.
Qed.

Lemma stopFFmpeg_drops_handle (w : World) (r : PipeWireRecorder) :
  ffmpegCmd (stopFFmpeg w r).1.1 = None
  /\ status (stopFFmpeg w r).1.1 = status r
  /\ session (stopFFmpeg w r).1.1 = session r
  /\ cfg (stopFFmpeg w r).1.1 = cfg r
  /\ channelStatusCache (stopFFmpeg w r).1.1 = channelStatusCache r.
Proof.
  unfold stopFFmpeg. destruct (ffmpegCmd r) eqn:Hc; [|done].
  destruct (cmd_wait w) as [err|]; [destruct (clean_exit err)|]; done.
Qed.

(** [Stop] away from Recording: an error, nothing changed. *)
Lemma Stop_not_recording (w : World) (r : PipeWireRecorder) :
  status r <> StatusRecording ->
  Stop w r = (r, Some "no recording in progress").
Proof.
  intros H. unfold Stop. by destruct (status r).
Qed.

(** [Stop] that fails while Recording leaves the status at Error. *)
Lemma Stop_failure_is_Error (w : World) (r r' : PipeWireRecorder) (err : error) :
  status r = StatusRecording ->
  Stop w r = (r', Some err) ->
  status r' = StatusError.
Proof.
  intros Hst H. unfold Stop in H. rewrite Hst in H.
  cbn [bool_decide negb decide_rel] in H.
  destruct (stopFFmpeg w (set_isRecording false r)) as [[r1 sent] [e|]];
    [by injection H as <- _|].
  destruct (validateOutputFile w r1); by injection H as <-.
Qed.

(** What holds after a [Stop] that succeeds. *)
Lemma Stop_success (w : World) (r r' : PipeWireRecorder) :
  Stop w r = (r', None) ->
  status r = StatusRecording
  /\ status r' = StatusStandby
  /\ ffmpegCmd r' = None
  /\ session r' = session r
  /\ exists s size, session r = Some s
                    /\ stat_size w (OutputFile s) = Some size
                    /\ (1024 <= size)%Z.
Proof.
  intros H. unfold Stop in H.
  destruct (status r) eqn:Hst; cbn [bool_decide negb decide_rel] in H;
    try discriminate H.
  pose proof (stopFFmpeg_drops_handle w (set_isRecording false r))
    as (Hcmd & _ & Hses & _).
  destruct (stopFFmpeg w (set_isRecording false r)) as [[r1 sent] [e|]];
    [discriminate H|].
  cbn [fst] in Hcmd, Hses.
  unfold validateOutputFile in H. rewrite Hses in H. cbn [session set_isRecording] in H.
  destruct (session r) as [s|] eqn:Hs; [|discriminate H].
  destruct (stat_size w (OutputFile s)) as [size|] eqn:Hsz; [|discriminate H].
  destruct (size <? 1024)%Z eqn:Hlt; [discriminate H|].
  injection H as <-. apply Z.ltb_ge in Hlt.
  split; [reflexivity|]. split; [reflexivity|]. split; [exact Hcmd|].
  split; [cbn [session set_status]; rewrite Hses; exact Hs|].
  exists s, size. done.
Qed.

(** C1. Where the code parts from the claim: after a [Stop] that
    succeeds the status is Standby and the output file is there with at
    least 1024 bytes, but the session of the recording is still in the
    recorder; [Stop] never sets it to nil. *)
Theorem Stop_success_keeps_session (w : World) (r r' : PipeWireRecorder) :
  Stop w r = (r', None) ->
  status r' = StatusStandby
  /\ session r' = session r
  /\ session r' <> None.
Proof.
  intros H. apply Stop_success in H as (_ & Hst & _ & Hses & s & size & Hs & _).
  split; [exact Hst|]. split; [exact Hses|]. rewrite Hses, Hs. discriminate.
Qed.



End WithPath.

End RecorderFacts.

(** ** The availability check of the monitor *)

Module MonitorFacts.
Import GoStrings PipeWire Recorder Spec.

Lemma ValidatePort_not_enabled (pw : PwLinkOutput) (source : string) :
  enabled source = false -> ValidatePort pw source = None.
Proof.
  unfold enabled, ValidatePort. intros H.
  destruct (String.eqb source ""); [done|].
  by destruct (String.eqb source "disabled").
Qed.

Lemma check_sources_fold (pw : PwLinkOutput) (sources : list string) (t : ChannelTally) :
  let ct := fold_left (check_source pw) sources t in
  channelHasAllSources ct
  = channelHasAllSources t && forallb (valid_source pw) sources
  /\ channelHasAnySources ct
     = channelHasAnySources t || existsb enabled sources
  /\ duplicates ct = duplicates t || existsb (duplicate_source pw) sources.
Proof.
  revert t. induction sources as [|source rest IH]; intros t; cbn zeta.
  - cbn [fold_left forallb existsb].
    by rewrite andb_true_r, !orb_false_r.
  - cbn [fold_left forallb existsb].
    destruct (IH (check_source pw t source)) as (H1 & H2 & H3).
    rewrite H1, H2, H3. clear H1 H2 H3 IH.
    unfold check_source, valid_source, duplicate_source.
    destruct (enabled source) eqn:Hen.
    + destruct (ValidatePort pw source) as [err|];
        cbn [channelHasAllSources channelHasAnySources duplicates andb orb].
      * rewrite andb_false_r, orb_true_r.
        by destruct (is_duplicate_error err), (duplicates t).
      * by rewrite orb_true_r.
    + by rewrite (ValidatePort_not_enabled _ _ Hen).
Qed.

Lemma check_channels_fold (pw : PwLinkOutput) (channels : list Channel) (t : Tally) :
  let t' := fold_left (check_channel pw) channels t in
  validChannels t'
  = (validChannels t + length (List.filter (valid_channel pw) channels))%nat
  /\ hasDuplicates t'
     = hasDuplicates t
       || existsb (fun ch => existsb (duplicate_source pw) (Sources ch)) channels.
Proof.
  revert t. induction channels as [|channel rest IH]; intros t; cbn zeta.
  - cbn [fold_left List.filter existsb length]. by rewrite Nat.add_0_r, orb_false_r.
  - cbn [fold_left List.filter existsb].
    destruct (IH (check_channel pw t channel)) as (H1 & H2).
    rewrite H1, H2. clear H1 H2 IH.
    unfold check_channel. cbn [validChannels hasDuplicates].
    match goal with
    | |- context [fold_left (check_source pw) _ ?t0] =>
        destruct (check_sources_fold pw (Sources channel) t0) as (Ha & Hb & Hc)
    end.
    rewrite Ha, Hb, Hc. cbn [channelHasAllSources channelHasAnySources duplicates].
    unfold valid_channel. rewrite orb_false_l, andb_true_l.
    destruct (existsb enabled (Sources channel) && forallb _ _); cbn [length];
      split; try lia; by rewrite orb_assoc.
Qed.

Lemma totalChannelsWithSources_fold (channels : list Channel) (n : nat) :
  fold_left (fun n channel => if existsb enabled (Sources channel) then S n else n)
    channels n
  = (n + length (List.filter (fun ch => existsb enabled (Sources ch)) channels))%nat.
Proof.
  revert n. induction channels as [|channel rest IH]; intros n;
    cbn [fold_left List.filter]; [cbn; lia|].
  rewrite IH. destruct (existsb enabled (Sources channel)); cbn [length]; lia.
Qed.

Lemma filter_both_length {A : Type} (P Q : A -> bool) (l : list A) :
  (length (List.filter (fun x => P x && Q x) l) <= length (List.filter P l))%nat
  /\ (length (List.filter (fun x => P x && Q x) l) = length (List.filter P l)
      <-> forall x, In x l -> P x = true -> Q x = true).
Proof.
  induction l as [|x l [IHle IHeq]]; cbn [List.filter].
  - split; [done|]. split; [by intros _ ? []|done].
  - destruct (P x) eqn:HP, (Q x) eqn:HQ; cbn [andb length].
    + split; [lia|]. split.
      * intros H y [<-|Hy] HPy; [done|]. apply IHeq; [lia|done..].
      * intros H. f_equal. apply IHeq. intros y Hy. apply H. by right.
    + split; [lia|]. split; [lia|].
      intros H. specialize (H x (or_introl eq_refl) HP). congruence.
    + split; [done|]. split.
      * intros H y [<-|Hy] HPy; [congruence|]. by apply IHeq.
      * intros H. apply IHeq. intros y Hy. apply H. by right.
    + split; [done|]. split.
      * intros H y [<-|Hy] HPy; [congruence|]. by apply IHeq.
      * intros H. apply IHeq. intros y Hy. apply H. by right.
Qed.

(** [checkAllSourcesAvailable], in closed form. *)
Lemma checkAllSourcesAvailable_closed (w : World) (r : PipeWireRecorder) :
  checkAllSourcesAvailable w r = true
  <-> (exists channel, In channel (Channels (cfg r))
                       /\ existsb enabled (Sources channel) = true)
      /\ (forall channel, In channel (Channels (cfg r)) ->
            existsb enabled (Sources channel) = true ->
            forallb (valid_source (pw_link_io w)) (Sources channel) = true)
      /\ existsb (fun ch => existsb (duplicate_source (pw_link_io w)) (Sources ch))
           (Channels (cfg r)) = false.
Proof.
  unfold checkAllSourcesAvailable, totalChannelsWithSources.
  match goal with
  | |- context [fold_left (check_channel ?pw) ?chs ?t0] =>
      destruct (check_channels_fold pw chs t0) as (Hv & Hd)
  end.
  rewrite Hv, Hd, totalChannelsWithSources_fold.
  cbn [validChannels hasDuplicates orb]. rewrite !Nat.add_0_l.
  set (pw := pw_link_io w). set (chs := Channels (cfg r)).
  destruct (filter_both_length (fun ch => existsb enabled (Sources ch))
              (fun ch => forallb (valid_source pw) (Sources ch)) chs) as [Hle Heq].
  fold (valid_channel pw) in Hle, Heq.
  change (fun x => existsb enabled (Sources x) && forallb (valid_source pw) (Sources x))
    with (valid_channel pw) in Hle, Heq.
  destruct (existsb _ chs) eqn:Hdup.
  - split; [done|]. by intros (_ & _ & ?).
  - rewrite andb_true_iff, Nat.ltb_lt, Nat.eqb_eq. split.
    + intros [Hpos Hsame]. split; [|split; [by apply Heq|done]].
      destruct (List.filter (valid_channel pw) chs) as [|ch l] eqn:Hf;
        [cbn in Hpos; lia|].
      assert (In ch (List.filter (valid_channel pw) chs)) as Hin
        by (rewrite Hf; by left).
      apply filter_In in Hin as [Hin Hvalid].
      exists ch. split; [done|]. unfold valid_channel in Hvalid.
      by apply andb_true_iff in Hvalid as [? _].
    + intros ((ch & Hin & Hany) & Hall & _).
      apply Heq in Hall as Hsame. split; [|done].
      rewrite Hsame.
      assert (In ch (List.filter (fun ch => existsb enabled (Sources ch)) chs)) as Hin'
        by (by apply filter_In).
      revert Hin'. generalize (List.filter (fun ch => existsb enabled (Sources ch)) chs).
      intros [|x l] Hx; [destruct Hx | cbn; lia].
Qed.

Lemma valid_source_true (pw : PwLinkOutput) (source : string) :
  valid_source pw source = true <-> ValidatePort pw source = None.
Proof. unfold valid_source. by destruct (ValidatePort pw source). Qed.

Lemma declares_source_iff (channel : Channel) :
  existsb enabled (Sources channel) = true <-> declares_source channel.
Proof. apply existsb_exists. Qed.

Lemma hasDuplicateSources_iff (w : World) (r : PipeWireRecorder) :
  hasDuplicateSources w r = true <-> duplicate_detected w r.
Proof.
  unfold hasDuplicateSources, duplicate_detected. rewrite existsb_exists. split.
  - intros (ch & Hch & H). apply existsb_exists in H as (src & Hsrc & H).
    apply andb_true_iff in H as [Hen H].
    destruct (ValidatePort (pw_link_io w) src) as [err|] eqn:Hv; [|done].
    by exists ch, src, err.
  - intros (ch & src & err & Hch & Hsrc & Hen & Hv & Hd).
    exists ch. split; [done|]. apply existsb_exists. exists src.
    split; [done|]. by rewrite Hen, Hv.
Qed.

Lemma promotion_closed (w : World) (r : PipeWireRecorder) :
  checkAllSourcesAvailable w r = true
  <-> (exists channel, In channel (Channels (cfg r)) /\ declares_source channel)
      /\ promotion_condition w r.
Proof.
  rewrite checkAllSourcesAvailable_closed. unfold promotion_condition.
  change (existsb (fun ch => existsb (duplicate_source (pw_link_io w)) (Sources ch))
            (Channels (cfg r))) with (hasDuplicateSources w r).
  rewrite <- hasDuplicateSources_iff, not_true_iff_false.
  split.
  - intros ((ch & Hin & Hany) & Hall & Hdup). split; [|split; [|done]].
    + exists ch. split; [done | by apply declares_source_iff].
    + intros ch' Hin' Hdecl src Hsrc. apply valid_source_true.
      apply declares_source_iff in Hdecl.
      by apply (proj1 (forallb_forall _ _) (Hall ch' Hin' Hdecl)).
  - intros ((ch & Hin & Hdecl) & Hall & Hdup). split; [|split; [|done]].
    + exists ch. split; [done | by apply declares_source_iff].
    + intros ch' Hin' Hany. apply forallb_forall. intros src Hsrc.
      apply valid_source_true. apply declares_source_iff in Hany.
      by apply (Hall ch' Hin' Hany).
Qed.

(** The claim of C3 read to the letter fails when no channel declares a
    source: the condition holds, for want of channels to check, and the
    monitor does not promote. *)
Lemma promotion_needs_a_source :
  status ready_idle = StatusReady
  /\ promotion_condition (quiet_world []) ready_idle
  /\ checkAllSourcesAvailable (quiet_world []) ready_idle = false
  /\ monitorTick (quiet_world []) (quiet_world []) ready_idle = (ready_idle, false)
  /\ ~ (forall w r, checkAllSourcesAvailable w r = true <-> promotion_condition w r).
Proof.
  assert (Hcond : promotion_condition (quiet_world []) ready_idle).
  { split.
    - intros ch Hin (src & Hsrc & Hen).
      destruct Hin as [<-|[<-|[]]]; cbn in Hsrc.
      + destruct Hsrc as [<-|[]]. discriminate Hen.
      + destruct Hsrc.
    - rewrite <- hasDuplicateSources_iff. by vm_compute. }
  split; [reflexivity|]. split; [exact Hcond|].
  split; [reflexivity|]. split; [reflexivity|].
  intros H. apply H in Hcond. discriminate Hcond.
Qed.

(** C3, as the code has it. The sources are all available exactly when
    some channel declares a source that is not disabled, every channel
    that declares one has all its sources connectable, and no duplicate
    is detected. A tick of the monitor in status Ready promotes exactly
    then; otherwise it drops to Standby on a duplicate and keeps polling
    without one. A channel without sources, or with disabled sources
    only, does not block; a stereo channel with one source missing, or
    with a duplicated source, does. *)
Theorem promotion_exactly_when (w : World) (r : PipeWireRecorder) :
  (checkAllSourcesAvailable w r = true
   <-> (exists channel, In channel (Channels (cfg r)) /\ declares_source channel)
       /\ promotion_condition w r)
  /\ (status r = StatusReady ->
      monitorTick w w r
      = if checkAllSourcesAvailable w r then auto_start w r
        else if hasDuplicateSources w r
             then (set_session None (set_status StatusStandby r), true)
             else (r, false))
  /\ (duplicate_detected w r -> checkAllSourcesAvailable w r = false)
  /\ checkAllSourcesAvailable (quiet_world ["app:left"; "app:right"])
       (NewPipeWireRecorder stereo_config) = true
  /\ checkAllSourcesAvailable (quiet_world ["app:left"])
       (NewPipeWireRecorder stereo_config) = false
  /\ checkAllSourcesAvailable (quiet_world ["app:left"; "app:right"; "app:right"])
       (NewPipeWireRecorder stereo_config) = false.
Proof.
  assert (Hdup : duplicate_detected w r -> checkAllSourcesAvailable w r = false).
  { intros Hd. apply not_true_iff_false. intros Hc.
    apply promotion_closed in Hc as (_ & _ & Hno). by apply Hno. }
  split; [apply promotion_closed|]. split; [|split; [exact Hdup|]].
  - intros Hst. unfold monitorTick, tick_promote, auto_start. rewrite Hst.
    cbn [bool_decide decide_rel].
    destruct (hasDuplicateSources w r) eqn:Hd.
    + apply hasDuplicateSources_iff in Hd. by rewrite (Hdup Hd).
    + destruct (checkAllSourcesAvailable w r); [|done].
      by destruct (StartRecording w r) as [r' [e|]].
  - split; [reflexivity|]. split; reflexivity.
Qed.

End MonitorFacts.

(** ** The invariants of the state machine *)

Module InvariantFacts.
Import GoStrings PipeWire Recorder Spec.

Section WithPath.

Context (filepath_Join : string -> string -> string).

Lemma invariant_NewPipeWireRecorder (c : Config) :
  invariant c (NewPipeWireRecorder c).
Proof. unfold NewPipeWireRecorder. crush_invariant. Qed.

Lemma invariant_StartReady c w songName r :
  invariant c r -> invariant c (StartReady filepath_Join w songName r).1.
Proof.
  intros H. unfold StartReady. split_status r; try exact H.
  all: destruct (String.eqb songName ""); [exact H|].
  all: destruct (mkdir_all w); [crush_invariant|].
  all: destruct (hasDuplicateSources w r); crush_invariant.
Qed.

Lemma invariant_scanChannelStatus c w r :
  invariant c r -> invariant c (scanChannelStatus w r).1.
Proof.
  intros H. unfold scanChannelStatus. crush_invariant.
Qed.

Lemma invariant_StartRecording c w r :
  invariant c r -> invariant c (StartRecording w r).1.
Proof.
  intros H. unfold StartRecording. split_status r; try exact H.
  destruct (session r) as [s|] eqn:Hs; [|exact H].
  unfold buildAndStartFFmpeg, scanChannelStatus.
  destruct (stdout_pipe w); [crush_invariant|].
  destruct (stderr_pipe w); [crush_invariant|].
  destruct (cmd_start w); crush_invariant.
Qed.

Lemma invariant_Stop c w r :
  invariant c r -> invariant c (Stop w r).1.
Proof.
  intros H. unfold Stop. split_status r; try exact H.
  pose proof (RecorderFacts.stopFFmpeg_drops_handle w (set_isRecording false r))
    as (Hcmd & Hst' & Hses & Hcfg & Hcache).
  destruct (stopFFmpeg w (set_isRecording false r)) as [[r1 sent] err].
  cbn [fst] in *.
  assert (invariant c (set_status StatusError r1)) as HE.
  { unfold invariant, handle_invariant, cache_invariant in *.
    cbn [cfg status session ffmpegCmd channelStatusCache set_status
         set_isRecording] in *.
    rewrite Hcfg, Hcache. intuition (try congruence; try discriminate). }
  assert (invariant c (set_status StatusStandby r1)) as HS.
  { unfold invariant, handle_invariant, cache_invariant in *.
    cbn [cfg status session ffmpegCmd channelStatusCache set_status
         set_isRecording] in *.
    rewrite Hcfg, Hcache. intuition (try congruence; try discriminate). }
  destruct err; [exact HE|].
  by destruct (validateOutputFile w r1).
Qed.

Lemma invariant_CancelReady c r :
  invariant c r -> invariant c (CancelReady r).1.
Proof.
  intros H. unfold CancelReady. split_status r; try exact H. crush_invariant.
Qed.

Lemma invariant_GetChannelStatus c w r :
  invariant c r -> invariant c (GetChannelStatus w r).1.
Proof.
  intros H. unfold GetChannelStatus.
  destruct (status r) eqn:Hst; try by apply invariant_scanChannelStatus.
  destruct (channelStatusCache r); [exact H | by apply invariant_scanChannelStatus].
Qed.

Lemma invariant_monitorTimeout c r :
  invariant c r -> invariant c (monitorTimeout r).
Proof.
  intros H. unfold monitorTimeout. split_status r; try exact H; crush_invariant.
Qed.

Lemma invariant_set_Error c r :
  invariant c r -> status r <> StatusRecording ->
  invariant c (set_status StatusError r).
Proof. intros H Hst. crush_invariant. Qed.

Lemma invariant_tick_promote c w r :
  invariant c r -> invariant c (tick_promote w r).1.
Proof.
  intros H. unfold tick_promote.
  destruct (checkAllSourcesAvailable w r); [|exact H].
  destruct (bool_decide (status r = StatusReady)) eqn:Hst; [|exact H].
  apply bool_decide_eq_true in Hst.
  pose proof (invariant_StartRecording c w r H) as HR.
  destruct (StartRecording w r) as [r1 [e|]] eqn:Hsr; [|exact HR].
  cbn [fst] in *. apply invariant_set_Error; [exact HR|].
  unfold StartRecording in Hsr. rewrite Hst in Hsr.
  cbn [bool_decide negb decide_rel] in Hsr.
  destruct (session r); [|injection Hsr as <- _; congruence].
  unfold buildAndStartFFmpeg in Hsr.
  destruct (stdout_pipe w); [injection Hsr as <- _; discriminate|].
  destruct (stderr_pipe w); [injection Hsr as <- _; discriminate|].
  destruct (cmd_start w); [injection Hsr as <- _; discriminate|].
  discriminate Hsr.
Qed.

Lemma invariant_monitorTick c w_dup w r :
  invariant c r -> invariant c (monitorTick w_dup w r).1.
Proof.
  intros H. unfold monitorTick.
  destruct (status r) eqn:Hst; try by apply invariant_tick_promote.
  - destruct (hasDuplicateSources w_dup r); [|by apply invariant_tick_promote].
    crush_invariant.
  - destruct (hasDuplicateSources w_dup r); apply invariant_tick_promote;
      [exact H|]. crush_invariant.
Qed.

(** Every step keeps the invariant. *)
Lemma invariant_step c r r' :
  invariant c r -> step filepath_Join r r' -> invariant c r'.
Proof.
  intros H Hstep. destruct Hstep.
  - by apply invariant_StartReady.
  - by apply invariant_StartRecording.
  - by apply invariant_Stop.
  - by apply invariant_CancelReady.
  - by apply invariant_GetChannelStatus.
  - exact H.
  - by apply invariant_monitorTick.
  - by apply invariant_monitorTimeout.
Qed.

Lemma invariant_reachable c r :
  reachable filepath_Join c r -> invariant c r.
Proof.
  unfold reachable. intros H.
  apply (rtc_ind_r (R := step filepath_Join) (invariant c) (NewPipeWireRecorder c));
    [apply invariant_NewPipeWireRecorder | | exact H].
  intros y z _ Hstep Hy. by eapply invariant_step.
Qed.



End WithPath.

End InvariantFacts.

(** ** The channel status mapping *)

Module ChannelStatusFacts.
Import GoStrings PipeWire Recorder Spec.

Lemma scan_sources_first_failing (pw : PwLinkOutput) (sources : list string) :
  scan_sources pw sources
  = match List.find (fun source => negb (valid_source pw source)) sources with
    | None => (true, false)
    | Some source => (false, duplicate_source pw source)
    end.
Proof.
  induction sources as [|source rest IH]; [reflexivity|].
  cbn [scan_sources List.find]. unfold valid_source at 1, duplicate_source.
  destruct (enabled source) eqn:Hen.
  - destruct (ValidatePort pw source) as [err|] eqn:Hv; cbn [negb]; [|exact IH].
    by rewrite Hen, Hv.
  - by rewrite (MonitorFacts.ValidatePort_not_enabled _ _ Hen).
Qed.

Lemma channel_status_first_failing (pw : PwLinkOutput) (channel : Channel) :
  channel_status pw channel
  = match first_failing pw channel with
    | None => "available"
    | Some source =>
        if duplicate_source pw source then "duplicate" else "unavailable"
    end.
Proof.
  unfold channel_status, first_failing. rewrite scan_sources_first_failing.
  by destruct (List.find _ _).
Qed.

Lemma first_failing_none (pw : PwLinkOutput) (channel : Channel) :
  first_failing pw channel = None
  <-> forall source, In source (Sources channel) -> enabled source = true ->
                     ValidatePort pw source = None.
Proof.
  unfold first_failing. split.
  - intros H source Hin _. apply (find_none _ _ H) in Hin.
    apply negb_false_iff in Hin. by apply MonitorFacts.valid_source_true.
  - intros H. destruct (List.find _ _) as [source|] eqn:Hf; [|done].
    apply find_some in Hf as [Hin Hbad]. apply negb_true_iff in Hbad.
    destruct (enabled source) eqn:Hen.
    + apply (H source Hin) in Hen. apply MonitorFacts.valid_source_true in Hen.
      congruence.
    + apply (MonitorFacts.ValidatePort_not_enabled pw) in Hen.
      apply MonitorFacts.valid_source_true in Hen. congruence.
Qed.

(** What each of the three values means. *)
Lemma channel_status_values (pw : PwLinkOutput) (channel : Channel) :
  (channel_status pw channel = "duplicate"
   <-> exists source, first_failing pw channel = Some source
                      /\ duplicate_source pw source = true)
  /\ (channel_status pw channel = "available"
      <-> forall source, In source (Sources channel) -> enabled source = true ->
                         ValidatePort pw source = None)
  /\ (channel_status pw channel = "unavailable"
      <-> exists source, first_failing pw channel = Some source
                         /\ duplicate_source pw source = false).
Proof.
  rewrite <- first_failing_none, channel_status_first_failing.
  destruct (first_failing pw channel) as [source|].
  - destruct (duplicate_source pw source) eqn:Hd.
    + split; [|split]; split; try done.
      * intros _. by exists source.
      * intros (s & Hs & Hd'). injection Hs as <-. congruence.
    + split; [|split]; split; try done.
      * intros (s & Hs & Hd'). injection Hs as <-. congruence.
      * intros _. by exists source.
  - split; [|split]; split; try done.
    + by intros (s & Hs & _).
    + by intros (s & Hs & _).
Qed.

Lemma channel_status_three (pw : PwLinkOutput) (channel : Channel) :
  channel_status pw channel = "available"
  \/ channel_status pw channel = "unavailable"
  \/ channel_status pw channel = "duplicate".
Proof.
  rewrite channel_status_first_failing.
  destruct (first_failing pw channel) as [source|]; [|by left].
  destruct (duplicate_source pw source); auto.
Qed.

Lemma last_named_cons (name : string) (channel : Channel) (rest : list Channel) :
  last_named name (channel :: rest)
  = match last_named name rest with
    | Some ch => Some ch
    | None => if String.eqb (Name channel) name then Some channel else None
    end.
Proof.
  unfold last_named. cbn [List.filter].
  destruct (String.eqb (Name channel) name); [|by destruct (last _)].
  destruct (List.filter _ rest) as [|ch l]; [done|].
  rewrite last_cons. by destruct (last (ch :: l)).
Qed.

(** The mapping after the loop over the channels: the last channel of
    a name decides the entry of that name. *)
Lemma scan_fold_lookup (pw : PwLinkOutput) (channels : list Channel)
  (st : gmap string string) (name : string) :
  fold_left (fun st channel => <[Name channel := channel_status pw channel]> st)
    channels st !! name
  = match last_named name channels with
    | Some ch => Some (channel_status pw ch)
    | None => st !! name
    end.
Proof.
  revert st. induction channels as [|channel rest IH]; intros st; [done|].
  cbn [fold_left]. rewrite IH, last_named_cons.
  destruct (last_named name rest); [done|].
  destruct (String.eqb_spec (Name channel) name) as [->|Hne].
  - by rewrite lookup_insert_eq.
  - by rewrite lookup_insert_ne.
Qed.

Lemma scan_channels_lookup (pw : PwLinkOutput) (channels : list Channel) (name : string) :
  scan_channels pw channels !! name = channel_status pw <$> last_named name channels.
Proof.
  unfold scan_channels. rewrite scan_fold_lookup, lookup_empty.
  by destruct (last_named name channels).
Qed.

Lemma last_named_is_Some (name : string) (channels : list Channel) :
  is_Some (last_named name channels)
  <-> exists ch, In ch channels /\ Name ch = name.
Proof.
  unfold last_named. split.
  - intros [ch Hch]. apply last_Some in Hch as [l Hl].
    assert (In ch (List.filter (fun ch => String.eqb (Name ch) name) channels)) as Hin.
    { rewrite Hl. apply in_or_app. right. by left. }
    apply filter_In in Hin as [Hin Heq]. exists ch. split; [done|].
    by apply String.eqb_eq.
  - intros (ch & Hin & Heq).
    assert (In ch (List.filter (fun ch => String.eqb (Name ch) name) channels)) as Hin'.
    { apply filter_In. split; [done|]. by apply String.eqb_eq. }
    destruct (List.filter _ channels) as [|x l] eqn:Hf using rev_ind; [destruct Hin'|].
    rewrite last_snoc. by eexists.
Qed.

(** The claim of C9 read to the letter fails behind a missing source:
    the second source of the channel fails validation with the duplicate
    error, yet the channel is reported "unavailable", because the scan
    of a channel stops at its first failing source. *)
Lemma duplicate_behind_missing_source :
  let w := quiet_world ["twice:1"; "twice:1"] in
  let r := NewPipeWireRecorder mixed_config in
  (GetChannelStatus w r).2 !! "backing" = Some "unavailable"
  /\ (exists err, In "twice:1" ["gone:1"; "twice:1"]
                  /\ enabled "twice:1" = true
                  /\ ValidatePort (pw_link_io w) "twice:1" = Some err
                  /\ is_duplicate_error err = true)
  /\ ~ ((GetChannelStatus w r).2 !! "backing" = Some "duplicate"
        <-> duplicate_detected w r).
Proof.
  cbn zeta. split; [by vm_compute|]. split.
  - eexists. split; [right; by left|]. split; [reflexivity|].
    split; [by vm_compute | by vm_compute].
  - intros [_ H].
    assert (duplicate_detected (quiet_world ["twice:1"; "twice:1"])
              (NewPipeWireRecorder mixed_config)) as Hd.
    { apply MonitorFacts.hasDuplicateSources_iff. by vm_compute. }
    apply H in Hd. vm_compute in Hd. discriminate Hd.
Qed.

Section WithPath.

Context (filepath_Join : string -> string -> string).

(** C9, as the code has it. The mapping returned by [GetChannelStatus]
    is a scan of the configured channels, of the routing graph as it
    is now unless the recorder is in status Recording: it has an entry
    for a name iff a configured channel has that name, and every value
    is "available", "unavailable" or "duplicate". The entry of a name
    is the status of the last channel of that name, which is
    "duplicate" iff the first source of the channel that fails
    validation fails with the duplicate error, "available" iff every
    enabled source validates, and "unavailable" iff the first failing
    source fails with another error. *)
Theorem GetChannelStatus_entries (c : Config) (w : World) (r : PipeWireRecorder) :
  reachable filepath_Join c r ->
  exists pw,
    (status r <> StatusRecording -> pw = pw_link_io w)
    /\ (GetChannelStatus w r).2 = scan_channels pw (Channels c)
    /\ (forall name, is_Some ((GetChannelStatus w r).2 !! name)
                     <-> exists ch, In ch (Channels c) /\ Name ch = name)
    /\ (forall name v, (GetChannelStatus w r).2 !! name = Some v ->
                       v = "available" \/ v = "unavailable" \/ v = "duplicate")
    /\ (forall name, (GetChannelStatus w r).2 !! name
                     = channel_status pw <$> last_named name (Channels c))
    /\ (forall channel,
          (channel_status pw channel = "duplicate"
           <-> exists source, first_failing pw channel = Some source
                              /\ duplicate_source pw source = true)
          /\ (channel_status pw channel = "available"
              <-> forall source, In source (Sources channel) ->
                                 enabled source = true ->
                                 ValidatePort pw source = None)
          /\ (channel_status pw channel = "unavailable"
              <-> exists source, first_failing pw channel = Some source
                                 /\ duplicate_source pw source = false)).
Proof.
  intros H. apply InvariantFacts.invariant_reachable in H as (Hcfg & _ & Hcache).
  assert (exists pw, (status r <> StatusRecording -> pw = pw_link_io w)
                     /\ (GetChannelStatus w r).2 = scan_channels pw (Channels c))
    as (pw & Hpw & Hm).
  { unfold GetChannelStatus, scanChannelStatus. rewrite Hcfg.
    destruct (status r) eqn:Hst; try (by exists (pw_link_io w)).
    destruct (channelStatusCache r) as [m|] eqn:Hc; [|by exists (pw_link_io w)].
    destruct (Hcache m Hc) as [pw ->]. exists pw. rewrite Hcfg.
    split; [done | reflexivity]. }
  exists pw. split; [exact Hpw|]. split; [exact Hm|]. rewrite Hm.
  split; [|split; [|split]].
  - intros name. rewrite scan_channels_lookup, <- last_named_is_Some.
    by rewrite fmap_is_Some.
  - intros name v. rewrite scan_channels_lookup.
    destruct (last_named name (Channels c)) as [ch|]; [|done].
    intros Hv. injection Hv as <-. apply channel_status_three.
  - intros name. apply scan_channels_lookup.
  - intros channel. apply channel_status_values.
Qed.

End WithPath.

End ChannelStatusFacts.

(** ** The theorems at sample inputs *)

Module Examples.
Import GoStrings PipeWire Recorder Spec.

Lemma recording_guitar_reachable :
  reachable join_clean guitar_config recording_guitar.
Proof.
  unfold reachable, recording_guitar.
  eapply rtc_l; [apply (step_StartReady join_clean _ (quiet_world ["dev:1"]) "song")|].
  eapply rtc_l; [apply (step_StartRecording join_clean _ (quiet_world ["dev:1"]))|].
  apply rtc_refl.
Defined.


(** A recording of "song" stopped with a file of 4096 bytes: the stop
    succeeds and the session is still there. *)
Lemma Stop_success_keeps_session_witness :
  let w := quiet_world ["dev:1"] in
  let r' := (Stop w recording_guitar).1 in
  Stop w recording_guitar = (r', None)
  /\ status r' = StatusStandby
  /\ session r' = session recording_guitar
  /\ session r' <> None.
Proof.
  cbn zeta.
  assert (H : Stop (quiet_world ["dev:1"]) recording_guitar
              = ((Stop (quiet_world ["dev:1"]) recording_guitar).1, None))
    by (vm_compute; reflexivity).
  split; [exact H|].
  exact (RecorderFacts.Stop_success_keeps_session _ _ _ H).
Defined.


Lemma StartReady_rejects_unchanged_witness :
  ((status recording_guitar <> StatusStandby /\ status recording_guitar <> StatusError)
   \/ "again" = "")
  /\ exists err, StartReady join_clean (quiet_world ["dev:1"]) "again" recording_guitar
                 = (recording_guitar, Some err).
Proof.
  assert (H : (status recording_guitar <> StatusStandby
               /\ status recording_guitar <> StatusError) \/ "again" = "").
  { left. split; vm_compute; discriminate. }
  split; [exact H|].
  exact (RecorderFacts.StartReady_rejects_unchanged join_clean
           (quiet_world ["dev:1"]) "again" recording_guitar H).
Defined.

Lemma StartRecording_rejects_unchanged_witness :
  status recording_guitar <> StatusReady
  /\ exists err, StartRecording (quiet_world ["dev:1"]) recording_guitar
                 = (recording_guitar, Some err).
Proof.
  assert (H : status recording_guitar <> StatusReady) by (vm_compute; discriminate).
  split; [exact H|].
  exact (proj1 (RecorderFacts.StartRecording_rejects_unchanged
                  (quiet_world ["dev:1"]) recording_guitar) (or_introl H)).
Defined.

Lemma GetChannelStatus_entries_witness :
  reachable join_clean guitar_config recording_guitar
  /\ exists pw,
       (GetChannelStatus (quiet_world []) recording_guitar).2
       = scan_channels pw (Channels guitar_config)
       /\ is_Some ((GetChannelStatus (quiet_world []) recording_guitar).2 !! "guitar").
Proof.
  split; [exact recording_guitar_reachable|].
  destruct (ChannelStatusFacts.GetChannelStatus_entries join_clean guitar_config
              (quiet_world []) recording_guitar recording_guitar_reachable)
    as (pw & _ & Hm & Hdom & _).
  exists pw. split; [exact Hm|]. apply Hdom.
  exists {| Name := "guitar"; Sources := ["dev:1"] |}.
  split; [by left | reflexivity].
Defined.

Lemma StartReady_output_file_witness :
  let w := quiet_world ["dev:1"] in
  let r := NewPipeWireRecorder guitar_config in
  let r' := (StartReady join_clean w "My Song! (live)" r).1 in
  StartReady join_clean w "My Song! (live)" r = (r', None)
  /\ exists s, session r' = Some s
               /\ SongName s = "My Song! (live)"
               /\ OutputFile s = "out/My_Song_live.mkv".
Proof.
  cbn zeta.
  assert (H : StartReady join_clean (quiet_world ["dev:1"]) "My Song! (live)"
                (NewPipeWireRecorder guitar_config)
              = ((StartReady join_clean (quiet_world ["dev:1"]) "My Song! (live)"
                    (NewPipeWireRecorder guitar_config)).1, None))
    by (vm_compute; reflexivity).
  split; [exact H|].
  destruct (RecorderFacts.StartReady_output_file join_clean _ _ _ _ H)
    as ((s & Hs & Hname & Hfile) & _).
  exists s. split; [exact Hs|]. split; [exact Hname|].
  rewrite Hfile. vm_compute. reflexivity.
Defined.

End Examples.

(** ** More on the port directory and the connection manager *)

Module MorePipeWire.
Import GoStrings PipeWire Recorder Spec Spec2.

Lemma is_port_line_true (line : string) :
  is_port_line line = true
  <-> line <> "" /\ HasPrefix line "Input ports:" = false
      /\ HasPrefix line "Output ports:" = false.
Proof.
  unfold is_port_line. rewrite !andb_true_iff, !negb_true_iff.
  destruct (String.eqb_spec line ""); split; intros H; try done.
  - destruct H as [[H _] _]. discriminate H.
  - by destruct H as [H _].
  - destruct H as [[_ H1] H2]. done.
  - destruct H as (_ & H1 & H2). done.
Qed.

Lemma portExists_In (lines : list string) (portName : string) :
  portExists (PwLines lines) portName = true <-> In portName lines.
Proof.
  unfold portExists. rewrite existsb_exists. split.
  - intros (line & Hin & Heq). apply String.eqb_eq in Heq. by subst.
  - intros Hin. exists portName. split; [done | apply String.eqb_refl].
Qed.

(** The ports [ListPorts] returns are the lines of the routing tool that
    are neither empty nor a heading, each as often and in the order it is
    printed; every one of them is a port for [portExists], and a name
    [portExists] finds is among them unless it is empty or looks like a
    heading. When the tool fails, [ListPorts] returns an error and
    [portExists] finds nothing. *)
Theorem ListPorts_and_portExists (out : PwLinkOutput) :
  (forall ports, ListPorts out = Ok ports ->
     exists lines, out = PwLines lines
       /\ ports = List.filter is_port_line lines
       /\ (forall p, In p ports ->
             p <> "" /\ HasPrefix p "Input ports:" = false
             /\ HasPrefix p "Output ports:" = false
             /\ portExists out p = true)
       /\ (forall p, portExists out p = true -> is_port_line p = true -> In p ports)
       /\ (forall p, is_port_line p = true ->
             count_occ string_dec ports p = count_occ string_dec lines p))
  /\ (forall msg, out = PwFailed msg ->
        ListPorts out = Err ("failed to list PipeWire ports: " +:+ msg)
        /\ forall p, portExists out p = false).
Proof.
  split.
  - intros ports H. destruct out as [msg|lines]; [discriminate H|].
    injection H as <-. exists lines. split; [done|]. split; [done|].
    split; [|split].
    + intros p Hin. apply filter_In in Hin as [Hin Hline].
      apply is_port_line_true in Hline as (H1 & H2 & H3).
      split; [done|]. split; [done|]. split; [done|]. by apply portExists_In.
    + intros p Hex Hline. apply filter_In. split; [|done]. by apply portExists_In.
    + intros p Hline. induction lines as [|line rest IH]; [done|].
      cbn [List.filter]. destruct (string_dec line p) as [->|Hne].
      * rewrite Hline. cbn [count_occ].
        destruct (string_dec p p); [by rewrite IH | done].
      * destruct (is_port_line line); cbn [count_occ];
          destruct (string_dec line p); try done.
  - intros msg ->. split; [done|]. by intros p.
Qed.

(** When the routing tool cannot be run, [ValidatePort] still accepts the
    empty name and "disabled", and reports every other name as not
    found. *)
Lemma ValidatePort_tool_failure (msg portName : string) :
  ValidatePort (PwFailed msg) portName
  = if enabled portName then Some (err_not_found portName) else None.
Proof.
  unfold ValidatePort, enabled.
  destruct (String.eqb portName ""); [done|].
  by destruct (String.eqb portName "disabled").
Qed.

(** [ValidateSource] of the backend answers as [ValidatePort] does, for
    every source and every state of the routing graph; in particular, when
    the routing tool cannot be run it accepts the empty name and
    "disabled" and reports every other source as not found. *)
Theorem ValidateSource_answers (out : PwLinkOutput) (source : string) :
  Service.ValidateSource out source = ValidatePort out source
  /\ (forall msg, out = PwFailed msg ->
        Service.ValidateSource out source
        = if enabled source then Some ("port not found: " +:+ source) else None).
Proof.
  assert (H : Service.ValidateSource out source = ValidatePort out source).
  { unfold Service.ValidateSource, ValidatePort.
    by destruct (String.eqb source "" || String.eqb source "disabled"). }
  split; [exact H|]. intros msg ->. rewrite H. apply ValidatePort_tool_failure.
Qed.

Lemma filter_all_true {A : Type} (P : A -> bool) (l : list A) :
  Forall (fun x => P x = true) l -> List.filter P l = l.
Proof.
  induction 1 as [|x l Hx _ IH]; [done|]. cbn [List.filter]. by rewrite Hx, IH.
Qed.

(** On an output made of port lines only, the helper of the tests and
    [ValidatePort] give the same answer for every name. *)
Theorem TestableValidatePort_agrees (lines : list string) (portName : string) :
  Forall (fun line => is_port_line line = true) lines ->
  TestableValidatePort portName lines = ValidatePort (PwLines lines) portName.
Proof.
  intros Hlines. unfold TestableValidatePort, ValidatePort, findPortDuplicates,
    ListPorts, portExists.
  by rewrite (filter_all_true _ _ Hlines).
Qed.

Lemma not_found_is_duplicate_error (portName : string) :
  is_duplicate_error (err_not_found portName)
  = Contains portName "duplicate sources detected".
Proof. reflexivity. Qed.

(** Which source counts as duplicated, read off the port list: an
    enabled source that is listed counts iff it is among the ports more
    than once; an enabled source that is not listed counts iff its own
    name contains the words "duplicate sources detected", which the
    callers look for in the text of the error. *)
Lemma duplicate_source_exact (lines : list string) (source : string) :
  duplicate_source (PwLines lines) source
  = enabled source
    && if portExists (PwLines lines) source
       then (1 <? count_occ string_dec (List.filter is_port_line lines) source)%nat
       else Contains source "duplicate sources detected".
Proof.
  unfold duplicate_source. destruct (enabled source) eqn:Hen; [|done].
  cbn [andb]. destruct (portExists (PwLines lines) source) eqn:Hex.
  - rewrite (PipeWireFacts.ValidatePort_present _ _ Hen Hex).
    by destruct (1 <? _)%nat.
  - unfold ValidatePort, enabled in *.
    apply andb_true_iff in Hen as [H1 H2]. apply negb_true_iff in H1, H2.
    rewrite H1, H2, Hex. cbn [orb negb]. apply not_found_is_duplicate_error.
Qed.

(** [hasDuplicateSources] is that test over every source of every
    channel. *)
Theorem hasDuplicateSources_exact (w : World) (r : PipeWireRecorder)
  (lines : list string) :
  pw_link_io w = PwLines lines ->
  (hasDuplicateSources w r = true
   <-> exists channel source,
         In channel (Channels (cfg r)) /\ In source (Sources channel)
         /\ enabled source = true
         /\ ((In source lines
              /\ (1 < count_occ string_dec (List.filter is_port_line lines) source)%nat)
             \/ (~ In source lines
                 /\ Contains source "duplicate sources detected" = true))).
Proof.
  intros Hpw. unfold hasDuplicateSources. rewrite Hpw, existsb_exists. split.
  - intros (ch & Hch & H). apply existsb_exists in H as (src & Hsrc & H).
    change (duplicate_source (PwLines lines) src = true) in H.
    rewrite duplicate_source_exact in H.
    apply andb_true_iff in H as [Hen H]. exists ch, src.
    split; [done|]. split; [done|]. split; [done|].
    destruct (portExists (PwLines lines) src) eqn:Hex.
    + left. split; [by apply portExists_In | by apply Nat.ltb_lt].
    + right. split; [|done]. intros Hin. apply portExists_In in Hin. congruence.
  - intros (ch & src & Hch & Hsrc & Hen & H). exists ch. split; [done|].
    apply existsb_exists. exists src. split; [done|].
    change (duplicate_source (PwLines lines) src = true).
    rewrite duplicate_source_exact, Hen. cbn [andb].
    destruct H as [[Hin Hc]|[Hnin Hc]].
    + apply portExists_In in Hin. rewrite Hin. by apply Nat.ltb_lt.
    + destruct (portExists (PwLines lines) src) eqn:Hex; [|done].
      apply portExists_In in Hex. done.
Qed.

End MorePipeWire.

(** ** More on the retry loop *)

Module MoreConnect.
Import GoStrings PipeWire Recorder Spec Spec2.

Lemma retry_policy_positive (sourcePort : string) :
  (1 <= (retry_policy sourcePort).1)%nat.
Proof. unfold retry_policy. destruct (isEphemeralPort sourcePort); cbn; lia. Qed.

(** The run of [ConnectPortsWithRetry] is the attempts of the statement. *)
Lemma ConnectPortsWithRetry_trace (w : LinkWorld) (sourcePort destPort : string) :
  (ConnectPortsWithRetry w sourcePort destPort).1
  = attempts_from w (retry_policy sourcePort).2
      (attempts_made w (retry_policy sourcePort).1) 1
  /\ ((ConnectPortsWithRetry w sourcePort destPort).2 = None
      <-> is_Some (first_connecting w (retry_policy sourcePort).1)).
Proof.
  pose proof (retry_policy_positive sourcePort) as Hpos.
  unfold ConnectPortsWithRetry, attempts_made, first_connecting.
  destruct (retry_policy sourcePort) as [maxRetries retryDelay]. cbn [fst snd] in *.
  rewrite (ConnectFacts.retry_loop_attempts w maxRetries retryDelay maxRetries 1) by lia.
  destruct (List.find _ _) as [k|]; cbn [fst snd default].
  - replace (S k - 1)%nat with k by lia. split; [done|]. split; [by eexists|done].
  - split; [done|]. split; [done|]. by intros [? ?].
Qed.





(** If the source port is there at the first attempt and the connection
    goes through, the call is one check and one connection, with no
    pause. *)
Theorem ConnectPortsWithRetry_first_try (w : LinkWorld) (sourcePort destPort : string) :
  port_present w 1 = true -> link_result w 1 = None ->
  ConnectPortsWithRetry w sourcePort destPort = ([CheckPort 1; Connect 1], None).
Proof.
  intros Hp Hl.
  destruct (ConnectPortsWithRetry_trace w sourcePort destPort) as [Ht Hres].
  pose proof (retry_policy_positive sourcePort) as Hpos.
  assert (Hfirst : first_connecting w (retry_policy sourcePort).1 = Some 1%nat).
  { unfold first_connecting.
    destruct (retry_policy sourcePort).1 as [|n]; [lia|].
    cbn [seq List.find]. unfold connects. rewrite Hp, Hl.
    by rewrite bool_decide_eq_true_2. }
  unfold attempts_made in Ht. rewrite Hfirst in Ht, Hres. simpl in Ht.
  destruct (ConnectPortsWithRetry w sourcePort destPort) as [trace res].
  cbn [fst snd] in *. rewrite Ht. unfold attempt_actions.
  rewrite Hp. f_equal. apply Hres. by eexists.
Qed.








End MoreConnect.

(** ** More on the operations of the recorder *)

Module MoreRecorder.
Import GoStrings PipeWire Recorder Spec Spec2.


Section WithPath.

Context (filepath_Join : string -> string -> string).


(** A [StartReady] that gets as far as starting the monitor, whether it
    ends in Ready or, on duplicates, in Error, is undone by the timeout of
    the monitor: status Standby, no session. *)
Theorem StartReady_then_timeout (w : World) (songName : string) (r : PipeWireRecorder) :
  status r = StatusStandby \/ status r = StatusError ->
  songName <> "" ->
  mkdir_all w = None ->
  status (monitorTimeout (StartReady filepath_Join w songName r).1) = StatusStandby
  /\ session (monitorTimeout (StartReady filepath_Join w songName r).1) = None.
Proof.
  intros Hst Hname Hmk. unfold StartReady. rewrite Hmk.
  apply String.eqb_neq in Hname. rewrite Hname.
  destruct Hst as [Hst|Hst]; rewrite Hst; cbn;
    by destruct (hasDuplicateSources w r).
Qed.


Lemma tick_promote_not_Ready (w : World) (r : PipeWireRecorder) :
  status r <> StatusReady -> tick_promote w r = (r, false).
Proof.
  intros Hst. unfold tick_promote.
  destruct (checkAllSourcesAvailable w r); [|done].
  by rewrite bool_decide_eq_false_2.
Qed.

(** A tick of the monitor in status Error: while a duplicate is seen the
    recorder stays as it is; once none is seen the status falls to Standby
    and the session is dropped; either way the monitor keeps polling and
    nothing is recorded. *)
Theorem monitorTick_in_Error (w_dup w : World) (r : PipeWireRecorder) :
  status r = StatusError ->
  monitorTick w_dup w r
  = if hasDuplicateSources w_dup r then (r, false)
    else (set_session None (set_status StatusStandby r), false).
Proof.
  intros Hst. unfold monitorTick. rewrite Hst.
  destruct (hasDuplicateSources w_dup r); apply tick_promote_not_Ready; cbn;
    congruence.
Qed.

(** A tick of the monitor changes nothing in status Standby or
    Recording; no tick ends in status Ready unless it began there without
    change, and no tick ends in Recording unless it began in Ready or
    Recording. *)
Theorem monitorTick_idle (w_dup w : World) (r : PipeWireRecorder) :
  (status r = StatusStandby \/ status r = StatusRecording ->
   monitorTick w_dup w r = (r, false))
  /\ (status (monitorTick w_dup w r).1 = StatusReady ->
      monitorTick w_dup w r = (r, false))
  /\ (status (monitorTick w_dup w r).1 = StatusRecording ->
      status r = StatusReady \/ status r = StatusRecording).
Proof.
  assert (Hpromote : forall r0, status r0 = StatusReady ->
            status (tick_promote w r0).1 = StatusReady ->
            tick_promote w r0 = (r0, false)).
  { intros r0 Hst H. unfold tick_promote in *.
    destruct (checkAllSourcesAvailable w r0); [|done].
    rewrite bool_decide_eq_true_2 in * by done.
    unfold StartRecording in *. rewrite Hst in *.
    cbn [bool_decide negb decide_rel] in *.
    rewrite bool_decide_eq_true_2 in * by done. cbn [negb] in *.
    destruct (session r0); [|cbn in H; discriminate H].
    unfold buildAndStartFFmpeg in *.
    destruct (stdout_pipe w); [cbn in H; discriminate H|].
    destruct (stderr_pipe w); [cbn in H; discriminate H|].
    destruct (cmd_start w); cbn in H; discriminate H. }
  split; [|split].
  - intros [Hst|Hst]; unfold monitorTick; rewrite Hst;
      apply tick_promote_not_Ready; congruence.
  - unfold monitorTick. destruct (status r) eqn:Hst.
    + rewrite tick_promote_not_Ready by congruence. done.
    + destruct (hasDuplicateSources w_dup r); [cbn; discriminate|].
      by apply Hpromote.
    + rewrite tick_promote_not_Ready by congruence. done.
    + destruct (hasDuplicateSources w_dup r).
      * rewrite tick_promote_not_Ready by congruence. done.
      * rewrite tick_promote_not_Ready by (cbn; congruence). cbn. discriminate.
  - unfold monitorTick. destruct (status r) eqn:Hst; auto.
    + rewrite tick_promote_not_Ready by congruence. cbn. congruence.
    + destruct (hasDuplicateSources w_dup r).
      * rewrite tick_promote_not_Ready by congruence. cbn. congruence.
      * rewrite tick_promote_not_Ready by (cbn; congruence). cbn. discriminate.
Qed.

End WithPath.

End MoreRecorder.

(** ** More on starting and stopping a recording *)

Module MoreLifecycle.
Import GoStrings PipeWire Recorder Spec Spec2.

Section WithPath.

Context (filepath_Join : string -> string -> string).


(** [StartRecording] from Ready with a session succeeds exactly when the
    two pipes and the start of the encoder succeed. In both cases the
    channel status cache is the scan made at the call and the session is
    kept. On success the status is Recording and the handle holds the
    command line built for the session's file; on failure the status is
    Error and there is no new handle. *)
Theorem StartRecording_outcomes (w : World) (r : PipeWireRecorder) (s : SessionInfo) :
  status r = StatusReady ->
  session r = Some s ->
  let r' := (StartRecording w r).1 in
  ((StartRecording w r).2 = None
   <-> stdout_pipe w = None /\ stderr_pipe w = None /\ cmd_start w = None)
  /\ channelStatusCache r'
     = Some (scan_channels (pw_link_io w) (Channels (cfg r)))
  /\ session r' = Some s
  /\ ((StartRecording w r).2 = None ->
      status r' = StatusRecording /\ isRecording r' = true
      /\ ffmpegCmd r'
         = Some {| Args := ffmpeg_args (cfg r) (Channels (cfg r)) (OutputFile s) |})
  /\ ((StartRecording w r).2 <> None ->
      status r' = StatusError /\ ffmpegCmd r' = ffmpegCmd r
      /\ isRecording r' = isRecording r).
Proof.
  intros Hst Hs. cbn zeta. unfold StartRecording. rewrite Hst, Hs.
  rewrite bool_decide_eq_true_2 by done. cbn [negb].
  unfold buildAndStartFFmpeg, scanChannelStatus. cbn [fst].
  destruct (stdout_pipe w), (stderr_pipe w), (cmd_start w);
    cbn [fst snd status session ffmpegCmd channelStatusCache isRecording cfg
         set_status set_isRecording set_ffmpegCmd set_channelStatusCache];
    rewrite ?Hs; repeat split; try done; try (intros (? & ? & ?); done).
Qed.

(** From [StartReady] to Recording: after an accepted [StartReady], a
    tick of the monitor that finds every source available, with an encoder
    that starts, ends the monitor and leaves status Recording, the session
    [StartReady] made, an encoder handle for the session's file, and the
    scan of that tick in the cache. *)
Theorem StartReady_then_promotion (w0 w : World) (songName : string)
  (r r1 : PipeWireRecorder) :
  StartReady filepath_Join w0 songName r = (r1, None) ->
  checkAllSourcesAvailable w r1 = true ->
  stdout_pipe w = None -> stderr_pipe w = None -> cmd_start w = None ->
  exists s,
    session r1 = Some s
    /\ SongName s = songName
    /\ ChannelCount s = length (Channels (cfg r))
    /\ (monitorTick w w r1).2 = true
    /\ status (monitorTick w w r1).1 = StatusRecording
    /\ session (monitorTick w w r1).1 = Some s
    /\ ffmpegCmd (monitorTick w w r1).1
       = Some {| Args := ffmpeg_args (cfg r) (Channels (cfg r)) (OutputFile s) |}
    /\ channelStatusCache (monitorTick w w r1).1
       = Some (scan_channels (pw_link_io w) (Channels (cfg r))).
Proof.
  intros H Hall H1 H2 H3.
  apply RecorderFacts.StartReady_accepts in H as (_ & _ & _ & _ & ->).
  assert (Hnodup : hasDuplicateSources w (ready_state filepath_Join w0 songName r)
                   = false).
  { apply not_true_iff_false. intros Hd.
    apply MonitorFacts.hasDuplicateSources_iff in Hd.
    apply MonitorFacts.promotion_closed in Hall as (_ & _ & Hno). by apply Hno. }
  eexists. split; [reflexivity|]. split; [reflexivity|]. split; [reflexivity|].
  unfold monitorTick.
  change (status (ready_state filepath_Join w0 songName r)) with StatusReady.
  rewrite Hnodup. unfold tick_promote. rewrite Hall.
  change (status (ready_state filepath_Join w0 songName r)) with StatusReady.
  rewrite bool_decide_eq_true_2 by done.
  unfold StartRecording.
  change (status (ready_state filepath_Join w0 songName r)) with StatusReady.
  rewrite bool_decide_eq_true_2 by done. cbn [negb].
  unfold buildAndStartFFmpeg, scanChannelStatus, ready_state.
  cbn [fst snd status session ffmpegCmd channelStatusCache isRecording cfg
       set_status set_session set_isRecording set_ffmpegCmd set_channelStatusCache].
  rewrite H1, H2, H3.
  cbn [fst snd status session ffmpegCmd channelStatusCache isRecording cfg
       set_status set_session set_isRecording set_ffmpegCmd set_channelStatusCache
       OutputFile].
  repeat split.
Qed.

(** Whatever [Stop] meets once the status is Recording, afterwards there
    is no encoder handle, the recording flag is off, the session and the
    cache are as before, and the status is Standby or Error, so that
    [StartReady] is open again: with a song name, a writable directory and
    no duplicate it is accepted. *)
Theorem Stop_then_StartReady (w : World) (r : PipeWireRecorder) :
  status r = StatusRecording ->
  let r' := (Stop w r).1 in
  ffmpegCmd r' = None
  /\ isRecording r' = false
  /\ session r' = session r
  /\ channelStatusCache r' = channelStatusCache r
  /\ ((Stop w r).2 = None -> status r' = StatusStandby)
  /\ ((Stop w r).2 <> None -> status r' = StatusError)
  /\ (forall w2 songName,
        songName <> "" -> mkdir_all w2 = None ->
        hasDuplicateSources w2 r = false ->
        StartReady filepath_Join w2 songName r'
        = (ready_state filepath_Join w2 songName r', None)).
Proof.
  intros Hst. cbn zeta.
  assert (Hfields : ffmpegCmd (Stop w r).1 = None
                    /\ isRecording (Stop w r).1 = false
                    /\ session (Stop w r).1 = session r
                    /\ channelStatusCache (Stop w r).1 = channelStatusCache r
                    /\ cfg (Stop w r).1 = cfg r
                    /\ ((Stop w r).2 = None -> status (Stop w r).1 = StatusStandby)
                    /\ ((Stop w r).2 <> None -> status (Stop w r).1 = StatusError)).
  { unfold Stop. rewrite Hst. rewrite bool_decide_eq_true_2 by done. cbn [negb].
    unfold stopFFmpeg, validateOutputFile.
    cbn [ffmpegCmd session set_isRecording].
    destruct (ffmpegCmd r) as [c|] eqn:Hc.
    - destruct (cmd_wait w) as [err|]; [destruct (clean_exit err)|];
        cbn [fst snd session set_ffmpegCmd set_isRecording];
        try (destruct (session r) as [s|] eqn:Hs;
             [destruct (stat_size w (OutputFile s)) as [size|];
              [destruct (size <? 1024)%Z|]|]);
        cbn; rewrite ?Hs; repeat split; try done; try (intros; congruence).
    - cbn [fst snd session set_isRecording].
      destruct (session r) as [s|] eqn:Hs;
        [destruct (stat_size w (OutputFile s)) as [size|];
         [destruct (size <? 1024)%Z|]|];
        cbn; rewrite ?Hc, ?Hs; repeat split; try done; try (intros; congruence). }
  destruct Hfields as (H1 & H2 & H3 & H4 & H5 & H6 & H7).
  split; [done|]. split; [done|]. split; [done|]. split; [done|].
  split; [done|]. split; [done|].
  intros w2 songName Hname Hmk Hdup.
  apply RecorderFacts.StartReady_accepts. split.
  - destruct (Stop w r).2; [right; by apply H7 | left; by apply H6].
  - split; [done|]. split; [done|]. split; [|done].
    unfold hasDuplicateSources in *. by rewrite H5.
Qed.


End WithPath.

End MoreLifecycle.

(** ** More on the channel status *)

Module MoreChannelStatus.
Import GoStrings PipeWire Recorder Spec Spec2.

Lemma channel_status_available (pw : PwLinkOutput) (channel : Channel) :
  channel_status pw channel = "available"
  <-> forallb (valid_source pw) (Sources channel) = true.
Proof.
  destruct (ChannelStatusFacts.channel_status_values pw channel) as (_ & Hav & _).
  rewrite Hav, forallb_forall. split.
  - intros H source Hin. apply MonitorFacts.valid_source_true.
    destruct (enabled source) eqn:Hen; [by apply H|].
    by apply MonitorFacts.ValidatePort_not_enabled.
  - intros H source Hin _. apply MonitorFacts.valid_source_true. by apply H.
Qed.

Lemma duplicate_source_not_valid (pw : PwLinkOutput) (source : string) :
  duplicate_source pw source = true -> valid_source pw source = false.
Proof.
  unfold duplicate_source, valid_source. intros H.
  apply andb_true_iff in H as [_ H]. by destruct (ValidatePort pw source).
Qed.

(** The monitor promotes exactly when some channel declares a source
    and the status of every configured channel is "available"; the
    mapping a scan of the same graph gives then holds no other value. *)
Theorem promotion_iff_all_available (w : World) (r : PipeWireRecorder) :
  (checkAllSourcesAvailable w r = true
   <-> (exists channel, In channel (Channels (cfg r)) /\ declares_source channel)
       /\ forall channel, In channel (Channels (cfg r)) ->
                          channel_status (pw_link_io w) channel = "available")
  /\ (checkAllSourcesAvailable w r = true ->
      forall name v,
        scan_channels (pw_link_io w) (Channels (cfg r)) !! name = Some v ->
        v = "available").
Proof.
  assert (Hiff : checkAllSourcesAvailable w r = true
     <-> (exists channel, In channel (Channels (cfg r)) /\ declares_source channel)
         /\ forall channel, In channel (Channels (cfg r)) ->
                            channel_status (pw_link_io w) channel = "available").
  { rewrite MonitorFacts.checkAllSourcesAvailable_closed. split.
    - intros ((ch & Hin & Hany) & Hall & Hdup). split.
      + exists ch. split; [done | by apply MonitorFacts.declares_source_iff].
      + intros ch' Hin'. apply channel_status_available.
        destruct (existsb enabled (Sources ch')) eqn:Hany'; [by apply Hall|].
        apply forallb_forall. intros source Hsrc.
        apply MonitorFacts.valid_source_true, MonitorFacts.ValidatePort_not_enabled.
        destruct (enabled source) eqn:Hen; [|done].
        assert (existsb enabled (Sources ch') = true) as Hc
          by (apply existsb_exists; by exists source).
        congruence.
    - intros ((ch & Hin & Hdecl) & Hall). split; [|split].
      + exists ch. split; [done | by apply MonitorFacts.declares_source_iff].
      + intros ch' Hin' _. by apply channel_status_available, Hall.
      + apply not_true_iff_false. intros Hd.
        apply existsb_exists in Hd as (ch' & Hin' & Hd).
        apply existsb_exists in Hd as (source & Hsrc & Hd).
        apply duplicate_source_not_valid in Hd.
        pose proof (proj1 (channel_status_available _ _) (Hall ch' Hin')) as Hv.
        rewrite forallb_forall in Hv. specialize (Hv source Hsrc). congruence. }
  split; [exact Hiff|].
  intros Hall name v Hv. apply Hiff in Hall as [_ Hall].
  rewrite ChannelStatusFacts.scan_channels_lookup in Hv.
  destruct (last_named name (Channels (cfg r))) as [ch|] eqn:Hl; [|done].
  injection Hv as <-. apply Hall.
  unfold last_named in Hl. apply last_Some in Hl as [l Hl].
  assert (In ch (List.filter (fun ch => String.eqb (Name ch) name) (Channels (cfg r))))
    as Hin by (rewrite Hl; apply in_or_app; right; by left).
  by apply filter_In in Hin as [Hin _].
Qed.

Section WithPath.

Context (filepath_Join : string -> string -> string).

(** A channel whose status is "duplicate" blocks [StartReady]: from
    Standby or Error, with a song name and a writable directory, the call
    fails on the duplicate and leaves status Error. *)
Theorem duplicate_status_blocks_StartReady (w : World) (songName : string)
  (r : PipeWireRecorder) (channel : Channel) :
  In channel (Channels (cfg r)) ->
  channel_status (pw_link_io w) channel = "duplicate" ->
  status r = StatusStandby \/ status r = StatusError ->
  songName <> "" ->
  mkdir_all w = None ->
  StartReady filepath_Join w songName r
  = (set_status StatusError r,
     Some "duplicate audio sources detected - please close conflicting applications before starting recording").
Proof.
  intros Hin Hdup Hst Hname Hmk.
  destruct (ChannelStatusFacts.channel_status_values (pw_link_io w) channel)
    as (Hd & _ & _).
  apply Hd in Hdup as (source & Hfirst & Hds).
  unfold first_failing in Hfirst. apply find_some in Hfirst as [Hsrc _].
  assert (hasDuplicateSources w r = true) as Hhas.
  { unfold hasDuplicateSources. apply existsb_exists. exists channel.
    split; [done|]. apply existsb_exists. by exists source. }
  unfold StartReady. apply String.eqb_neq in Hname. rewrite Hname, Hmk, Hhas.
  by destruct Hst as [-> | ->].
Qed.

(** The mapping is frozen while recording: after a [StartRecording] that
    succeeds, [GetChannelStatus] returns the scan made at the start,
    whatever the routing graph has become, and changes nothing; in any
    other status it returns a scan of the graph as it is and stores it. *)
Theorem GetChannelStatus_frozen (w0 w : World) (r r' : PipeWireRecorder) :
  (StartRecording w0 r = (r', None) ->
   GetChannelStatus w r'
   = (r', scan_channels (pw_link_io w0) (Channels (cfg r))))
  /\ (status r <> StatusRecording ->
      GetChannelStatus w r
      = (set_channelStatusCache
           (Some (scan_channels (pw_link_io w) (Channels (cfg r)))) r,
         scan_channels (pw_link_io w) (Channels (cfg r)))).
Proof.
  split.
  - intros H. unfold StartRecording in H.
    destruct (status r) eqn:Hst; cbn [bool_decide negb decide_rel] in H;
      try (rewrite bool_decide_eq_false_2 in H by done; discriminate H).
    rewrite bool_decide_eq_true_2 in H by done. cbn [negb] in H.
    destruct (session r) as [s|]; [|discriminate H].
    unfold buildAndStartFFmpeg, scanChannelStatus in H. cbn [fst] in H.
    destruct (stdout_pipe w0); [discriminate H|].
    destruct (stderr_pipe w0); [discriminate H|].
    destruct (cmd_start w0); [discriminate H|].
    injection H as <-. reflexivity.
  - intros Hst. unfold GetChannelStatus, scanChannelStatus.
    by destruct (status r).
Qed.

End WithPath.

End MoreChannelStatus.

(** ** More invariants of the state machine *)

Module MoreInvariants.
Import GoStrings PipeWire Recorder Spec Spec2.

Section WithPath.

Context (filepath_Join : string -> string -> string).

Lemma more_invariant_New (c : Config) :
  more_invariant filepath_Join c (NewPipeWireRecorder c).
Proof. unfold NewPipeWireRecorder. crush_more. Qed.

Lemma more_invariant_StartReady c w songName r :
  more_invariant filepath_Join c r ->
  more_invariant filepath_Join c (StartReady filepath_Join w songName r).1.
Proof.
  intros H. unfold StartReady. split_status r; try exact H.
  all: destruct (String.eqb_spec songName "") as [->|Hname]; [exact H|].
  all: destruct (mkdir_all w); [crush_more|].
  all: destruct (hasDuplicateSources w r); [crush_more|].
  all: destruct H as (Hcfg & Hflag & Hses); split; [exact Hcfg|]; split.
  all: try (unfold flag_invariant in *; cbn; intuition congruence).
  all: intros s Hs; cbn in Hs; injection Hs as <-; unfold session_for; cbn;
    rewrite Hcfg; done.
Qed.

Lemma more_invariant_StartRecording c w r :
  more_invariant filepath_Join c r ->
  more_invariant filepath_Join c (StartRecording w r).1.
Proof.
  intros H. unfold StartRecording. split_status r; try exact H.
  destruct (session r) as [s|] eqn:Hs; [|exact H].
  unfold buildAndStartFFmpeg, scanChannelStatus.
  destruct (stdout_pipe w); [crush_more|].
  destruct (stderr_pipe w); [crush_more|].
  destruct (cmd_start w); crush_more.
Qed.

Lemma Stop_fields (w : World) (r : PipeWireRecorder) :
  status r = StatusRecording ->
  cfg (Stop w r).1 = cfg r
  /\ session (Stop w r).1 = session r
  /\ isRecording (Stop w r).1 = false
  /\ status (Stop w r).1 <> StatusRecording.
Proof.
  intros Hst. unfold Stop. rewrite Hst. rewrite bool_decide_eq_true_2 by done.
  cbn [negb].
  pose proof (RecorderFacts.stopFFmpeg_drops_handle w (set_isRecording false r))
    as (_ & _ & Hses & Hcfg & _).
  assert (Hflag : isRecording (stopFFmpeg w (set_isRecording false r)).1.1 = false).
  { unfold stopFFmpeg. cbn [ffmpegCmd set_isRecording].
    destruct (ffmpegCmd r); [|done].
    destruct (cmd_wait w) as [err|]; [destruct (clean_exit err)|]; done. }
  destruct (stopFFmpeg w (set_isRecording false r)) as [[r1 sent] err].
  cbn [fst] in *.
  destruct err; [cbn; by rewrite Hses, Hcfg, Hflag|].
  destruct (validateOutputFile w r1); cbn; by rewrite Hses, Hcfg, Hflag.
Qed.

Lemma more_invariant_Stop c w r :
  more_invariant filepath_Join c r -> more_invariant filepath_Join c (Stop w r).1.
Proof.
  intros H. destruct (decide (status r = StatusRecording)) as [Hst|Hst].
  - destruct (Stop_fields w r Hst) as (Hcfg & Hses & Hflag & Hstatus).
    unfold more_invariant, flag_invariant, session_invariant in *.
    rewrite Hcfg, Hses, Hflag. intuition (try congruence; try discriminate).
  - by rewrite RecorderFacts.Stop_not_recording.
Qed.

Lemma more_invariant_CancelReady c r :
  more_invariant filepath_Join c r -> more_invariant filepath_Join c (CancelReady r).1.
Proof.
  intros H. unfold CancelReady. split_status r; try exact H. crush_more.
Qed.

Lemma more_invariant_GetChannelStatus c w r :
  more_invariant filepath_Join c r ->
  more_invariant filepath_Join c (GetChannelStatus w r).1.
Proof.
  intros H. unfold GetChannelStatus, scanChannelStatus.
  destruct (status r) eqn:Hst; [crush_more | crush_more | | crush_more].
  destruct (channelStatusCache r); [exact H | crush_more].
Qed.

Lemma more_invariant_monitorTimeout c r :
  more_invariant filepath_Join c r -> more_invariant filepath_Join c (monitorTimeout r).
Proof.
  intros H. unfold monitorTimeout. split_status r; try exact H; crush_more.
Qed.

Lemma more_invariant_tick_promote c w r :
  more_invariant filepath_Join c r ->
  more_invariant filepath_Join c (tick_promote w r).1.
Proof.
  intros H. unfold tick_promote.
  destruct (checkAllSourcesAvailable w r); [|exact H].
  destruct (bool_decide (status r = StatusReady)) eqn:Hst; [|exact H].
  apply bool_decide_eq_true in Hst.
  unfold StartRecording. rewrite Hst. rewrite bool_decide_eq_true_2 by done.
  cbn [negb]. destruct (session r) as [s|] eqn:Hs; [|crush_more].
  unfold buildAndStartFFmpeg, scanChannelStatus.
  destruct (stdout_pipe w); [crush_more|].
  destruct (stderr_pipe w); [crush_more|].
  destruct (cmd_start w); crush_more.
Qed.

Lemma more_invariant_monitorTick c w_dup w r :
  more_invariant filepath_Join c r ->
  more_invariant filepath_Join c (monitorTick w_dup w r).1.
Proof.
  intros H. unfold monitorTick.
  destruct (status r) eqn:Hst; try by apply more_invariant_tick_promote.
  - destruct (hasDuplicateSources w_dup r); [|by apply more_invariant_tick_promote].
    crush_more.
  - destruct (hasDuplicateSources w_dup r); apply more_invariant_tick_promote;
      [exact H|]. crush_more.
Qed.

Lemma more_invariant_step c r r' :
  more_invariant filepath_Join c r -> step filepath_Join r r' ->
  more_invariant filepath_Join c r'.
Proof.
  intros H Hstep. destruct Hstep.
  - by apply more_invariant_StartReady.
  - by apply more_invariant_StartRecording.
  - by apply more_invariant_Stop.
  - by apply more_invariant_CancelReady.
  - by apply more_invariant_GetChannelStatus.
  - exact H.
  - by apply more_invariant_monitorTick.
  - by apply more_invariant_monitorTimeout.
Qed.

Lemma more_invariant_reachable c r :
  reachable filepath_Join c r -> more_invariant filepath_Join c r.
Proof.
  unfold reachable. intros H.
  apply (rtc_ind_r (R := step filepath_Join) (more_invariant filepath_Join c)
           (NewPipeWireRecorder c));
    [apply more_invariant_New | | exact H].
  intros y z _ Hstep Hy. by eapply more_invariant_step.
Qed.


(** In every state the recorder can reach, step after step, the
    configuration is the one it was made with, and a session, if there is
    one, has a song name that is not empty, the output file of that name
    in the output directory, and the count and the labels of the
    configured channels. *)
Theorem session_well_formed (c : Config) (r : PipeWireRecorder) (s : SessionInfo) :
  reachable filepath_Join c r ->
  session r = Some s ->
  cfg r = c
  /\ SongName s <> ""
  /\ OutputFile s
     = filepath_Join (Output_Directory c) (cleanFileName (SongName s) +:+ ".mkv")
  /\ ChannelCount s = length (Channels c)
  /\ ChannelNames s = map channel_label (Channels c).
Proof.
  intros H Hs. apply more_invariant_reachable in H as (Hcfg & _ & Hses).
  split; [exact Hcfg|]. exact (Hses s Hs).
Qed.

End WithPath.

End MoreInvariants.

(** ** More on file names *)

Module MoreFileNames.
Import GoStrings PipeWire Recorder Spec Spec2.

Lemma allowed_after_replace (c : ascii) :
  allowed c = true -> name_char (if Ascii.eqb c " " then "_"%char else c) = true.
Proof.
  destruct c as [b0 b1 b2 b3 b4 b5 b6 b7].
  destruct b0, b1, b2, b3, b4, b5, b6, b7; vm_compute; intros H;
    first [reflexivity | discriminate H].
Qed.

Lemma name_char_facts (c : ascii) :
  name_char c = true ->
  allowed c = true /\ is_space c = false /\ Ascii.eqb c " " = false
  /\ c <> "/"%char /\ c <> "."%char.
Proof.
  destruct c as [b0 b1 b2 b3 b4 b5 b6 b7].
  destruct b0, b1, b2, b3, b4, b5, b6, b7; vm_compute; intros H;
    first [discriminate H | repeat split; discriminate].
Qed.

Lemma keep_allowed_all (name : string) :
  Forall (fun c => allowed c = true) (list_ascii_of_string (keep_allowed name)).
Proof.
  induction name as [|c rest IH]; cbn [keep_allowed]; [constructor|].
  destruct (allowed c) eqn:Hc; [|exact IH]. by constructor.
Qed.

Lemma trim_left_all (P : ascii -> Prop) (s : string) :
  Forall P (list_ascii_of_string s) -> Forall P (list_ascii_of_string (trim_left s)).
Proof.
  induction s as [|c rest IH]; [done|]. intros H. cbn [trim_left].
  destruct (is_space c); [|exact H].
  apply IH. cbn in H. by apply Forall_cons in H as [_ H].
Qed.

Lemma trim_right_all (P : ascii -> Prop) (s : string) :
  Forall P (list_ascii_of_string s) -> Forall P (list_ascii_of_string (trim_right s)).
Proof.
  induction s as [|c rest IH]; [done|]. intros H. cbn [trim_right].
  cbn in H. apply Forall_cons in H as [Hc H]. specialize (IH H).
  destruct (trim_right rest) as [|d t].
  - destruct (is_space c); [constructor | by repeat constructor].
  - by constructor.
Qed.

Lemma ReplaceAll1_all (s : string) :
  Forall (fun c => allowed c = true) (list_ascii_of_string s) ->
  Forall (fun c => name_char c = true)
    (list_ascii_of_string (ReplaceAll1 s " " "_")).
Proof.
  induction s as [|c rest IH]; [constructor|]. intros H. cbn in H.
  apply Forall_cons in H as [Hc H]. cbn [ReplaceAll1 list_ascii_of_string].
  constructor; [by apply allowed_after_replace | by apply IH].
Qed.

Lemma cleanFileName_all (name : string) :
  Forall (fun c => name_char c = true) (list_ascii_of_string (cleanFileName name)).
Proof.
  unfold cleanFileName, TrimSpace.
  apply ReplaceAll1_all, trim_right_all, trim_left_all, keep_allowed_all.
Qed.

(** A sanitised name is made of ASCII letters, digits, hyphens and
    underscores only: it holds no space, no path separator and no dot, so
    that with ".mkv" it is one element of a path. *)
Theorem cleanFileName_alphabet (name : string) :
  Forall (fun c => name_char c = true) (list_ascii_of_string (cleanFileName name))
  /\ ~ In " "%char (list_ascii_of_string (cleanFileName name))
  /\ ~ In "/"%char (list_ascii_of_string (cleanFileName name))
  /\ ~ In "."%char (list_ascii_of_string (cleanFileName name)).
Proof.
  pose proof (cleanFileName_all name) as H. split; [exact H|].
  rewrite Forall_forall in H.
  split; [|split]; intros Hin; apply list_elem_of_In, H in Hin;
    vm_compute in Hin; discriminate Hin.
Qed.

Lemma clean_fixed (s : string) :
  Forall (fun c => name_char c = true) (list_ascii_of_string s) ->
  keep_allowed s = s /\ trim_left s = s /\ trim_right s = s
  /\ ReplaceAll1 s " " "_" = s.
Proof.
  induction s as [|c rest IH]; [done|]. intros H. cbn in H.
  apply Forall_cons in H as [Hc H]. destruct (IH H) as (H1 & H2 & H3 & H4).
  apply name_char_facts in Hc as (Ha & Hs & He & _).
  cbn [keep_allowed trim_left trim_right ReplaceAll1].
  rewrite Ha, Hs, He, H1, H3, H4. repeat split. by destruct rest.
Qed.

(** Sanitising twice is sanitising once. *)
Theorem cleanFileName_idempotent (name : string) :
  cleanFileName (cleanFileName name) = cleanFileName name.
Proof.
  destruct (clean_fixed _ (cleanFileName_all name)) as (H1 & H2 & H3 & H4).
  unfold cleanFileName at 1. unfold TrimSpace. by rewrite H1, H2, H3, H4.
Qed.

Lemma service_allowed (c : ascii) :
  Service.allowed c
  = allowed c && negb (Ascii.eqb c "-" || Ascii.eqb c "_").
Proof.
  destruct c as [b0 b1 b2 b3 b4 b5 b6 b7].
  destruct b0, b1, b2, b3, b4, b5, b6, b7; vm_compute; reflexivity.
Qed.

Lemma service_keep_allowed (name : string) :
  Service.keep_allowed name = keep_allowed (drop_marks name).
Proof.
  induction name as [|c rest IH]; [done|].
  cbn [Service.keep_allowed drop_marks]. rewrite service_allowed.
  destruct (Ascii.eqb c "-" || Ascii.eqb c "_") eqn:Hm.
  - by rewrite andb_false_r.
  - rewrite andb_true_r. cbn [keep_allowed]. by rewrite IH.
Qed.

(** The service cleans a song name as the recorder cleans the name
    without its hyphens and underscores. The two agree on names that have
    neither, and then [GetSongInfo] names the file the recorder writes
    into a clean directory; they differ on "my-song", for which the
    recorder writes "my-song.mkv" and the service reports "mysong.mkv". *)
Theorem service_cleanFileName (s : Service.JamCaptureService) (name : string) :
  Service.cleanFileName name = cleanFileName (drop_marks name)
  /\ (drop_marks name = name ->
      Service.cleanFileName name = cleanFileName name
      /\ Service.OutputMKV (Service.GetSongInfo s name)
         = join_clean (Output_Directory (cfg (Service.recorder s)))
             (cleanFileName name +:+ ".mkv"))
  /\ cleanFileName "my-song" = "my-song"
  /\ Service.cleanFileName "my-song" = "mysong".
Proof.
  assert (H : Service.cleanFileName name = cleanFileName (drop_marks name)).
  { unfold Service.cleanFileName, cleanFileName. by rewrite service_keep_allowed. }
  split; [exact H|]. split; [|split; reflexivity].
  intros Hsame. rewrite Hsame in H. split; [exact H|].
  unfold Service.GetSongInfo, join_clean. cbn [Service.OutputMKV]. by rewrite H.
Qed.

End MoreFileNames.

(** ** The command line of the encoder and the worker *)

Module MoreEncoder.
Import GoStrings PipeWire Recorder Spec Spec2.

Lemma concat_blocks_length {A B : Type} (f : A -> list B) (k : nat) (l : list A) :
  (forall x, length (f x) = k) -> length (concat (map f l)) = (k * length l)%nat.
Proof.
  intros Hk. induction l as [|x l IH]; cbn [map concat length]; [lia|].
  rewrite length_app, Hk, IH. lia.
Qed.

Lemma concat_blocks_lookup {A B : Type} (f : A -> list B) (k : nat) (l : list A)
  (i j : nat) (x : A) :
  (forall y, length (f y) = k) -> l !! i = Some x -> (j < k)%nat ->
  concat (map f l) !! (k * i + j)%nat = f x !! j.
Proof.
  intros Hk. revert i. induction l as [|y l IH]; intros i Hi Hj; [done|].
  cbn [map concat]. destruct i as [|i].
  - injection Hi as ->. rewrite Nat.mul_0_r. cbn [Nat.add].
    apply lookup_app_l. by rewrite Hk.
  - cbn in Hi. rewrite lookup_app_r by (rewrite Hk; lia).
    rewrite Hk. replace (k * S i + j - k)%nat with (k * i + j)%nat by lia.
    by apply IH.
Qed.

Lemma concat_iblocks_length {A B : Type} (g : nat -> A -> list B) (k : nat)
  (l : list A) :
  (forall i x, length (g i x) = k) -> length (concat (imap g l)) = (k * length l)%nat.
Proof.
  revert g. induction l as [|x l IH]; intros g Hk; cbn [imap concat length]; [lia|].
  rewrite length_app, Hk, IH by (intros; apply Hk). lia.
Qed.

Lemma concat_iblocks_lookup {A B : Type} (g : nat -> A -> list B) (k : nat)
  (l : list A) (i j : nat) (x : A) :
  (forall i y, length (g i y) = k) -> l !! i = Some x -> (j < k)%nat ->
  concat (imap g l) !! (k * i + j)%nat = g i x !! j.
Proof.
  intros Hk. revert g Hk i. induction l as [|y l IH]; intros g Hk i Hi Hj; [done|].
  cbn [imap concat]. destruct i as [|i].
  - injection Hi as ->. rewrite Nat.mul_0_r. cbn [Nat.add].
    apply lookup_app_l. by rewrite Hk.
  - cbn in Hi. rewrite lookup_app_r by (rewrite Hk; lia).
    rewrite Hk. replace (k * S i + j - k)%nat with (k * i + j)%nat by lia.
    rewrite (IH (g ∘ S)); [done | intros; apply Hk | done | done].
Qed.

Lemma jack_input_inputs (channel : Channel) :
  jack_input channel
  = ["-f"; "jack"; "-channels"; itoa (encoder_inputs channel);
     "-i"; "jamcapture_" +:+ Name channel].
Proof.
  unfold jack_input, encoder_inputs.
  destruct (length (Sources channel)) as [|[|[|n]]]; reflexivity.
Qed.

(** The command line of the encoder has 8 + 10 n words for n channels
    and ends with the output file. Channel number i (from 0) is input
    number i and track number i: its JACK client is "jamcapture_" and its
    name, opened with one port, or two if the channel has two sources or
    more; its track is mapped from input i and titled with its name. *)
Theorem ffmpeg_args_layout (c : Config) (channels : list Channel)
  (outputFile : string) :
  let args := ffmpeg_args c channels outputFile in
  let n := length channels in
  length args = (8 + 10 * n)%nat
  /\ last args = Some outputFile
  /\ args !! 0%nat = Some "pw-jack" /\ args !! 1%nat = Some "ffmpeg"
  /\ forall i channel, channels !! i = Some channel ->
       (encoder_inputs channel = 1%nat \/ encoder_inputs channel = 2%nat)
       /\ (encoder_inputs channel = 2%nat <-> (2 <= length (Sources channel))%nat)
       /\ args !! (2 + 6 * i + 2)%nat = Some "-channels"
       /\ args !! (2 + 6 * i + 3)%nat = Some (itoa (encoder_inputs channel))
       /\ args !! (2 + 6 * i + 5)%nat = Some ("jamcapture_" +:+ Name channel)
       /\ args !! (4 + 6 * n + 4 * i + 1)%nat = Some (itoa i +:+ ":0")
       /\ args !! (4 + 6 * n + 4 * i + 2)%nat = Some ("-metadata:s:a:" +:+ itoa i)
       /\ args !! (4 + 6 * n + 4 * i + 3)%nat = Some ("title=" +:+ Name channel).
Proof.
  cbn zeta. unfold ffmpeg_args.
  set (inputs := concat (map jack_input channels)).
  set (tracks := concat (imap track_map channels)).
  assert (Hin : length inputs = (6 * length channels)%nat)
    by (apply concat_blocks_length; intros x; by rewrite jack_input_inputs).
  assert (Htr : length tracks = (4 * length channels)%nat)
    by (by apply concat_iblocks_length).
  split; [|split; [|split; [|split]]].
  - rewrite !length_app, Hin, Htr. cbn [length]. lia.
  - rewrite !app_assoc.
    change ["-c:a"; Output_Format c; "-y"; outputFile]
      with (["-c:a"; Output_Format c; "-y"] ++ [outputFile])%list.
    rewrite app_assoc. apply last_snoc.
  - reflexivity.
  - reflexivity.
  - intros i channel Hi.
    assert (Hlt : (i < length channels)%nat) by (by eapply lookup_lt_Some).
    assert (Hblock : forall j, (j < 6)%nat ->
              (["pw-jack"; "ffmpeg"] ++ inputs ++ ["-ar"; ztoa (Audio_SampleRate c)]
                 ++ tracks ++ ["-c:a"; Output_Format c; "-y"; outputFile])%list
                !! (2 + 6 * i + j)%nat
              = jack_input channel !! j).
    { intros j Hj. rewrite lookup_app_r by (cbn [length]; lia).
      cbn [length]. replace (2 + 6 * i + j - 2)%nat with (6 * i + j)%nat by lia.
      rewrite lookup_app_l by lia.
      apply concat_blocks_lookup; [intros y; by rewrite jack_input_inputs|done..]. }
    assert (Htrack : forall j, (j < 4)%nat ->
              (["pw-jack"; "ffmpeg"] ++ inputs ++ ["-ar"; ztoa (Audio_SampleRate c)]
                 ++ tracks ++ ["-c:a"; Output_Format c; "-y"; outputFile])%list
                !! (4 + 6 * length channels + 4 * i + j)%nat
              = track_map i channel !! j).
    { intros j Hj. rewrite lookup_app_r by (cbn [length]; lia).
      cbn [length]. rewrite lookup_app_r by lia. rewrite Hin.
      rewrite lookup_app_r by (cbn [length]; lia). cbn [length].
      replace (4 + 6 * length channels + 4 * i + j - 2 - 6 * length channels - 2)%nat
        with (4 * i + j)%nat by lia.
      rewrite lookup_app_l by lia.
      by apply concat_iblocks_lookup. }
    split; [|split].
    + unfold encoder_inputs. destruct (length (Sources channel)) as [|[|[|m]]]; cbn; auto.
    + unfold encoder_inputs. destruct (length (Sources channel)) as [|[|[|m]]]; cbn;
        split; intros; try lia; try discriminate.
    + rewrite (Hblock 2%nat), (Hblock 3%nat), (Hblock 5%nat) by lia.
      rewrite (Htrack 1%nat), (Htrack 2%nat), (Htrack 3%nat) by lia.
      rewrite jack_input_inputs. repeat split.
Qed.

End MoreEncoder.

(** ** The worker that connects the ports *)

Module MoreWorker.
Import GoStrings PipeWire Recorder Spec Spec2 Worker.

(** [waitForSpecificPort] returns nil exactly when the port validates at
    one of the polls; a port that the graph lists twice at every poll is
    waited for until the timeout, as is any port when no poll is made. *)
Theorem waitForSpecificPort_found (polls : list PwLinkOutput) (portName : string) :
  (waitForSpecificPort polls portName = None
   <-> exists pw, In pw polls /\ ValidatePort pw portName = None)
  /\ (waitForSpecificPort polls portName <> None ->
      waitForSpecificPort polls portName
      = Some ("timeout waiting for JACK port: " +:+ portName))
  /\ (enabled portName = true ->
      (forall pw, In pw polls ->
         exists lines, pw = PwLines lines
           /\ (1 < count_occ string_dec (List.filter is_port_line lines) portName)%nat) ->
      waitForSpecificPort polls portName <> None).
Proof.
  assert (Hiff : waitForSpecificPort polls portName = None
                 <-> exists pw, In pw polls /\ ValidatePort pw portName = None).
  { unfold waitForSpecificPort.
    destruct (existsb _ polls) eqn:Hex.
    - split; [intros _|done]. apply existsb_exists in Hex as (pw & Hin & Hv).
      apply bool_decide_eq_true in Hv. by exists pw.
    - split; [done|]. intros (pw & Hin & Hv).
      assert (existsb (fun pw => bool_decide (ValidatePort pw portName = None)) polls
              = true) as Hc.
      { apply existsb_exists. exists pw. split; [done|].
        by apply bool_decide_eq_true. }
      congruence. }
  split; [exact Hiff|]. split.
  - unfold waitForSpecificPort. by destruct (existsb _ polls).
  - intros Hen Hdup Hnone. apply Hiff in Hnone as (pw & Hin & Hv).
    destruct (Hdup pw Hin) as (lines & -> & Hcount).
    assert (portExists (PwLines lines) portName = true) as Hex.
    { apply MorePipeWire.portExists_In.
      assert (In portName (List.filter is_port_line lines)) as Hf.
      { apply (count_occ_In string_dec). lia. }
      by apply filter_In in Hf as [Hf _]. }
    rewrite (PipeWireFacts.ValidatePort_present _ _ Hen Hex) in Hv.
    apply Nat.ltb_lt in Hcount. rewrite Hcount in Hv. discriminate Hv.
Qed.

Lemma connect_mono_connections (ww : WorkerWorld) (waits : nat) (channel : Channel)
  (source destPort : string) :
  (length (Sources channel) <= 1)%nat ->
  In (ConnectPorts source destPort) (connect_mono ww waits channel).1 ->
  enabled source = true
  /\ Sources channel !! 0%nat = Some source
  /\ destPort = input_port (Name channel) 1
  /\ In (WaitPort destPort true) (connect_mono ww waits channel).1.
Proof.
  intros Hlen. unfold connect_mono.
  destruct (wait_found ww waits (input_port (Name channel) 1)); cbn [negb].
  - destruct (Sources channel) as [|src rest] eqn:Hs; cbn [fst].
    + intros [H|[]]. discriminate H.
    + destruct (enabled src) eqn:Hen; cbn [fst].
      * intros [H|[H|[]]]; [discriminate H|]. injection H as <- <-.
        split; [done|]. split; [done|]. split; [done|]. by left.
      * intros [H|[]]. discriminate H.
  - cbn [fst]. intros [H|[]]. discriminate H.
Qed.

Lemma connect_stereo_connections (ww : WorkerWorld) (name : string)
  (sources : list string) (waits i : nat) (source destPort : string) :
  In (ConnectPorts source destPort) (connect_stereo ww waits name i sources).1 ->
  enabled source = true
  /\ (exists k, sources !! k = Some source /\ (i + k < 2)%nat
                /\ destPort = input_port name (S (i + k)))
  /\ In (WaitPort destPort true) (connect_stereo ww waits name i sources).1.
Proof.
  revert waits i. induction sources as [|src rest IH]; intros waits i; [intros []|].
  cbn [connect_stereo]. destruct (2 <=? i)%nat eqn:Hi; [intros []|].
  apply Nat.leb_gt in Hi.
  assert (Hnext : forall waits',
            In (ConnectPorts source destPort)
              (connect_stereo ww waits' name (S i) rest).1 ->
            enabled source = true
            /\ (exists k, (src :: rest) !! k = Some source /\ (i + k < 2)%nat
                          /\ destPort = input_port name (S (i + k)))
            /\ In (WaitPort destPort true)
                 (connect_stereo ww waits' name (S i) rest).1).
  { intros waits' H. apply IH in H as (Hen & (k & Hk & Hlt & Hd) & Hw).
    split; [done|]. split; [|done]. exists (S k). split; [done|].
    split; [lia|]. by replace (i + S k)%nat with (S i + k)%nat by lia. }
  destruct (enabled src) eqn:Hen; cbn [negb]; [|apply Hnext].
  destruct (wait_found ww waits (input_port name (S i))); cbn [negb fst].
  - intros [H|[H|H]]; [discriminate H| |].
    + injection H as <- <-. split; [done|]. split; [|by left].
      exists 0%nat. split; [done|]. split; [lia|]. by rewrite Nat.add_0_r.
    + apply Hnext in H as (H1 & H2 & H3). split; [done|]. split; [done|].
      right; by right.
  - intros [H|H]; [discriminate H|].
    apply Hnext in H as (H1 & H2 & H3). split; [done|]. split; [done|]. by right.
Qed.

Lemma connect_channel_connections (ww : WorkerWorld) (waits : nat) (channel : Channel)
  (source destPort : string) :
  In (ConnectPorts source destPort) (connect_channel ww waits channel).1 ->
  enabled source = true
  /\ (exists k, Sources channel !! k = Some source
                /\ destPort = input_port (Name channel) (S k)
                /\ (S k <= encoder_inputs channel)%nat)
  /\ In (WaitPort destPort true) (connect_channel ww waits channel).1.
Proof.
  unfold connect_channel, encoder_inputs.
  destruct (length (Sources channel) <=? 1)%nat eqn:Hlen.
  - apply Nat.leb_le in Hlen. intros H.
    apply connect_mono_connections in H as (Hen & Hs & Hd & Hw); [|done].
    split; [done|]. split; [|done]. exists 0%nat. split; [done|]. split; [done|].
    destruct (Sources channel) as [|x [|y l]]; cbn in *; try done; lia.
  - apply Nat.leb_gt in Hlen. intros H.
    apply connect_stereo_connections in H as (Hen & (k & Hk & Hlt & Hd) & Hw).
    split; [done|]. split; [|done]. exists k. split; [done|]. split; [done|].
    destruct (length (Sources channel)) as [|[|[|m]]]; cbn; lia.
Qed.

Lemma worker_channels_connections (ww : WorkerWorld) (channels : list Channel)
  (waits : nat) (source destPort : string) :
  In (ConnectPorts source destPort) (worker_channels ww waits channels) ->
  enabled source = true
  /\ (exists channel k,
        In channel channels /\ Sources channel !! k = Some source
        /\ (k < 2)%nat
        /\ destPort = "jamcapture_" +:+ Name channel +:+ ":input_" +:+ itoa (S k)
        /\ (S k <= encoder_inputs channel)%nat)
  /\ In (WaitPort destPort true) (worker_channels ww waits channels).
Proof.
  revert waits. induction channels as [|channel rest IH]; intros waits; [intros []|].
  cbn [worker_channels]. intros H. apply in_app_or in H as [H|H].
  - apply connect_channel_connections in H as (Hen & (k & Hk & Hd & Hle) & Hw).
    split; [done|]. split.
    + exists channel, k. split; [by left|]. split; [done|]. split; [|done].
      assert (encoder_inputs channel <= 2)%nat; [|lia].
      unfold encoder_inputs.
      destruct (length (Sources channel)) as [|[|[|m]]]; cbn; lia.
    + apply in_or_app. by left.
  - apply IH in H as (Hen & (ch & k & Hin & Hrest) & Hw).
    split; [done|]. split.
    + exists ch, k. split; [by right | exact Hrest].
    + apply in_or_app. by right.
Qed.

(** The worker asks for a connection only from a source that is not
    disabled, the first or the second of its channel, to the input port of
    that number of the channel's JACK client, a port the encoder was told
    to open and a wait of the worker has found. *)
Theorem recordingWorker_connections (ww : WorkerWorld) (channels : list Channel)
  (source destPort : string) :
  In (ConnectPorts source destPort) (recordingWorker ww channels) ->
  enabled source = true
  /\ (exists channel k,
        In channel channels /\ Sources channel !! k = Some source
        /\ (k < 2)%nat
        /\ destPort = "jamcapture_" +:+ Name channel +:+ ":input_" +:+ itoa (S k)
        /\ (S k <= encoder_inputs channel)%nat)
  /\ In (WaitPort destPort true) (recordingWorker ww channels).
Proof. apply worker_channels_connections. Qed.

Lemma connections_of_wait (destPort : string) (found : bool) (l : list WorkerAction) :
  connections_of (WaitPort destPort found :: l) = connections_of l.
Proof. reflexivity. Qed.

Lemma connections_of_connect (source destPort : string) (l : list WorkerAction) :
  connections_of (ConnectPorts source destPort :: l)
  = (source, destPort) :: connections_of l.
Proof. reflexivity. Qed.

Lemma connect_channel_count (ww : WorkerWorld) (waits : nat) (channel : Channel) :
  (length (connections_of (connect_channel ww waits channel).1) <= 2)%nat.
Proof.
  unfold connect_channel. destruct (length (Sources channel) <=? 1)%nat.
  - unfold connect_mono.
    destruct (wait_found ww waits _); cbn [negb]; [|cbn; lia].
    destruct (Sources channel) as [|src rest]; [cbn; lia|].
    destruct (enabled src); cbn; lia.
  - assert (H : forall sources n i,
              (length (connections_of (connect_stereo ww n (Name channel) i sources).1)
               <= 2 - i)%nat);
      [|specialize (H (Sources channel) waits 0%nat); lia].
    induction sources as [|src rest IH]; intros n i; [cbn; lia|].
    cbn [connect_stereo]. destruct (2 <=? i)%nat eqn:Hi; [cbn; lia|].
    apply Nat.leb_gt in Hi.
    destruct (enabled src); cbn [negb];
      [|specialize (IH n (S i)); lia].
    specialize (IH (S n) (S i)).
    destruct (wait_found ww n _); cbn [negb fst].
    + rewrite connections_of_wait, connections_of_connect. cbn [length]. lia.
    + rewrite connections_of_wait. lia.
Qed.

Lemma worker_channels_count (ww : WorkerWorld) (channels : list Channel) (waits : nat) :
  (length (connections_of (worker_channels ww waits channels))
   <= 2 * length channels)%nat.
Proof.
  revert waits. induction channels as [|channel rest IH]; intros waits; [cbn; lia|].
  cbn [worker_channels length]. unfold connections_of in *.
  rewrite omap_app, length_app.
  pose proof (connect_channel_count ww waits channel) as H. unfold connections_of in H.
  specialize (IH (connect_channel ww waits channel).2). lia.
Qed.

(** The worker asks for two connections per channel at most. *)
Theorem recordingWorker_count (ww : WorkerWorld) (channels : list Channel) :
  (length (connections_of (recordingWorker ww channels)) <= 2 * length channels)%nat.
Proof. apply worker_channels_count. Qed.

End MoreWorker.

(** ** The service around the recorder *)

Module MoreService.
Import GoStrings PipeWire Recorder Spec Spec2.

Section WithPath.

Context (filepath_Join : string -> string -> string).

(** The service passes [StartReady] and [Stop] on to its recorder and
    returns their errors. After either call its error text is empty
    exactly when the call succeeded, and otherwise is the error of the
    recorder behind "Failed to start recording: " or "Failed to stop
    recording: ". Reading the status returns the status and the session of
    the recorder, leaves the recorder alone, and empties the error text
    unless the status is Error. *)
Theorem service_error_text (w : World) (songName : string)
  (s : Service.JamCaptureService) :
  let started := Service.StartReady filepath_Join w songName s in
  let stopped := Service.StopRecording w s in
  let polled := Service.GetRecordingStatus s in
  (Service.recorder started.1, started.2)
    = StartReady filepath_Join w songName (Service.recorder s)
  /\ (Service.GetLastError started.1 = "" <-> started.2 = None)
  /\ (forall err, started.2 = Some err ->
        Service.GetLastError started.1 = "Failed to start recording: " +:+ err)
  /\ (Service.recorder stopped.1, stopped.2) = Stop w (Service.recorder s)
  /\ (Service.GetLastError stopped.1 = "" <-> stopped.2 = None)
  /\ (forall err, stopped.2 = Some err ->
        Service.GetLastError stopped.1 = "Failed to stop recording: " +:+ err)
  /\ polled.2 = (status (Service.recorder s), session (Service.recorder s))
  /\ Service.recorder polled.1 = Service.recorder s
  /\ Service.GetLastError polled.1
     = if bool_decide (status (Service.recorder s) = StatusError)
       then Service.GetLastError s else "".
Proof.
  cbn zeta. unfold Service.StartReady, Service.StopRecording,
    Service.GetRecordingStatus, Service.GetLastError, GetStatus.
  cbn [Service.recorder Service.clearLastError].
  destruct (StartReady filepath_Join w songName (Service.recorder s)) as [r1 [e1|]];
    destruct (Stop w (Service.recorder s)) as [r2 [e2|]];
    destruct (status (Service.recorder s)); cbn;
    repeat split; try done; try (intros ? H; by injection H as <-).
Qed.

End WithPath.

End MoreService.

(** ** The further theorems at sample inputs *)

Module MoreExamples.
Import GoStrings PipeWire Recorder Spec Spec2.

Lemma TestableValidatePort_agrees_witness :
  Forall (fun line => is_port_line line = true)
    ["Chrome:output_FL"; "Chrome:output_FL"; "system:capture_1"]
  /\ TestableValidatePort "Chrome:output_FL"
       ["Chrome:output_FL"; "Chrome:output_FL"; "system:capture_1"]
     = ValidatePort
         (PwLines ["Chrome:output_FL"; "Chrome:output_FL"; "system:capture_1"])
         "Chrome:output_FL".
Proof.
  assert (H : Forall (fun line => is_port_line line = true)
                ["Chrome:output_FL"; "Chrome:output_FL"; "system:capture_1"])
    by (repeat constructor).
  split; [exact H|].
  exact (MorePipeWire.TestableValidatePort_agrees _ "Chrome:output_FL" H).
Defined.

Lemma hasDuplicateSources_exact_witness :
  pw_link_io (quiet_world ["dev:1"; "dev:1"]) = PwLines ["dev:1"; "dev:1"]
  /\ (hasDuplicateSources (quiet_world ["dev:1"; "dev:1"])
        (NewPipeWireRecorder guitar_config) = true
      <-> exists channel source,
            In channel (Channels guitar_config) /\ In source (Sources channel)
            /\ enabled source = true
            /\ ((In source ["dev:1"; "dev:1"]
                 /\ (1 < count_occ string_dec
                           (List.filter is_port_line ["dev:1"; "dev:1"]) source)%nat)
                \/ (~ In source ["dev:1"; "dev:1"]
                    /\ Contains source "duplicate sources detected" = true))).
Proof.
  split; [reflexivity|].
  exact (MorePipeWire.hasDuplicateSources_exact (quiet_world ["dev:1"; "dev:1"])
           (NewPipeWireRecorder guitar_config) ["dev:1"; "dev:1"] eq_refl).
Defined.


Lemma ConnectPortsWithRetry_first_try_witness :
  let w := {| port_present := fun _ => true; link_result := fun _ => None |} in
  port_present w 1 = true /\ link_result w 1 = None
  /\ ConnectPortsWithRetry w "Firefox:output_FL" "jamcapture_backing:input_1"
     = ([CheckPort 1; Connect 1], None).
Proof.
  cbn zeta. split; [reflexivity|]. split; [reflexivity|].
  exact (MoreConnect.ConnectPortsWithRetry_first_try
           {| port_present := fun _ => true; link_result := fun _ => None |}
           "Firefox:output_FL" "jamcapture_backing:input_1" eq_refl eq_refl).
Defined.

Lemma StartReady_then_timeout_witness :
  let w := quiet_world ["dev:1"; "dev:1"] in
  let r := NewPipeWireRecorder guitar_config in
  (status r = StatusStandby \/ status r = StatusError)
  /\ "song" <> "" /\ mkdir_all w = None
  /\ status (StartReady join_clean w "song" r).1 = StatusError
  /\ status (monitorTimeout (StartReady join_clean w "song" r).1) = StatusStandby
  /\ session (monitorTimeout (StartReady join_clean w "song" r).1) = None.
Proof.
  cbn zeta.
  assert (H1 : status (NewPipeWireRecorder guitar_config) = StatusStandby
               \/ status (NewPipeWireRecorder guitar_config) = StatusError)
    by (left; reflexivity).
  assert (H2 : "song" <> "") by discriminate.
  split; [exact H1|]. split; [exact H2|]. split; [reflexivity|].
  split; [reflexivity|].
  exact (MoreRecorder.StartReady_then_timeout join_clean
           (quiet_world ["dev:1"; "dev:1"]) "song"
           (NewPipeWireRecorder guitar_config) H1 H2 eq_refl).
Defined.


Lemma monitorTick_in_Error_witness :
  status error_guitar = StatusError
  /\ monitorTick (quiet_world ["dev:1"]) (quiet_world ["dev:1"]) error_guitar
     = (set_session None (set_status StatusStandby error_guitar), false).
Proof.
  assert (H : status error_guitar = StatusError) by reflexivity.
  split; [exact H|].
  exact (MoreRecorder.monitorTick_in_Error (quiet_world ["dev:1"])
           (quiet_world ["dev:1"]) error_guitar H).
Defined.


Lemma StartRecording_outcomes_witness :
  let s := {| SongName := "song"; StartTime := 0; OutputFile := "out/song.mkv";
              ChannelCount := 1; ChannelNames := ["guitar:[dev:1]"] |} in
  status ready_guitar = StatusReady
  /\ session ready_guitar = Some s
  /\ (StartRecording no_encoder_world ready_guitar).2 <> None
  /\ status (StartRecording no_encoder_world ready_guitar).1 = StatusError
  /\ ffmpegCmd (StartRecording no_encoder_world ready_guitar).1 = None.
Proof.
  cbn zeta.
  destruct (MoreLifecycle.StartRecording_outcomes no_encoder_world ready_guitar _
              eq_refl eq_refl) as (Hiff & _ & _ & _ & Hfail).
  assert (Herr : (StartRecording no_encoder_world ready_guitar).2 <> None).
  { intros H. apply Hiff in H as (_ & _ & H). discriminate H. }
  split; [reflexivity|]. split; [reflexivity|]. split; [exact Herr|].
  destruct (Hfail Herr) as (H1 & H2 & _). split; [exact H1 | exact H2].
Defined.

Lemma StartReady_then_promotion_witness :
  let w := quiet_world ["dev:1"] in
  StartReady join_clean w "song" (NewPipeWireRecorder guitar_config)
  = (ready_guitar, None)
  /\ checkAllSourcesAvailable w ready_guitar = true
  /\ exists s, session ready_guitar = Some s
               /\ ChannelCount s = 1%nat
               /\ status (monitorTick w w ready_guitar).1 = StatusRecording
               /\ session (monitorTick w w ready_guitar).1 = Some s.
Proof.
  cbn zeta.
  assert (H : StartReady join_clean (quiet_world ["dev:1"]) "song"
                (NewPipeWireRecorder guitar_config) = (ready_guitar, None))
    by reflexivity.
  assert (Hall : checkAllSourcesAvailable (quiet_world ["dev:1"]) ready_guitar = true)
    by reflexivity.
  split; [exact H|]. split; [exact Hall|].
  destruct (MoreLifecycle.StartReady_then_promotion join_clean _
              (quiet_world ["dev:1"]) _ _ _ H Hall eq_refl eq_refl eq_refl)
    as (s & Hs & _ & Hcount & _ & Hst & Hses & _).
  exists s. split; [exact Hs|]. split; [exact Hcount|]. split; [exact Hst | exact Hses].
Defined.

Lemma Stop_then_StartReady_witness :
  let w := with_wait (Done (ExitError 1 (Some "exit status 1"))) (quiet_world ["dev:1"]) in
  status recording_guitar = StatusRecording
  /\ ffmpegCmd (Stop w recording_guitar).1 = None
  /\ "next" <> "" /\ mkdir_all (quiet_world ["dev:1"]) = None
  /\ hasDuplicateSources (quiet_world ["dev:1"]) recording_guitar = false
  /\ (StartReady join_clean (quiet_world ["dev:1"]) "next" (Stop w recording_guitar).1).2
     = None.
Proof.
  cbn zeta.
  assert (H : status recording_guitar = StatusRecording) by reflexivity.
  assert (Hname : "next" <> "") by discriminate.
  destruct (MoreLifecycle.Stop_then_StartReady join_clean
              (with_wait (Done (ExitError 1 (Some "exit status 1")))
                 (quiet_world ["dev:1"])) recording_guitar H)
    as (Hcmd & _ & _ & _ & _ & _ & Hagain).
  split; [exact H|]. split; [exact Hcmd|]. split; [exact Hname|].
  split; [reflexivity|]. split; [reflexivity|].
  by rewrite (Hagain (quiet_world ["dev:1"]) "next" Hname eq_refl eq_refl).
Defined.

Lemma duplicate_status_blocks_StartReady_witness :
  let w := quiet_world ["dev:1"; "dev:1"] in
  let r := NewPipeWireRecorder guitar_config in
  let channel := {| Name := "guitar"; Sources := ["dev:1"] |} in
  In channel (Channels (cfg r))
  /\ channel_status (pw_link_io w) channel = "duplicate"
  /\ (status r = StatusStandby \/ status r = StatusError)
  /\ "song" <> "" /\ mkdir_all w = None
  /\ StartReady join_clean w "song" r
     = (set_status StatusError r,
        Some "duplicate audio sources detected - please close conflicting applications before starting recording").
Proof.
  cbn zeta.
  assert (H1 : In {| Name := "guitar"; Sources := ["dev:1"] |}
                 (Channels (cfg (NewPipeWireRecorder guitar_config))))
    by (left; reflexivity).
  assert (H2 : status (NewPipeWireRecorder guitar_config) = StatusStandby
               \/ status (NewPipeWireRecorder guitar_config) = StatusError)
    by (left; reflexivity).
  assert (H3 : "song" <> "") by discriminate.
  split; [exact H1|]. split; [reflexivity|]. split; [exact H2|].
  split; [exact H3|]. split; [reflexivity|].
  exact (MoreChannelStatus.duplicate_status_blocks_StartReady join_clean
           (quiet_world ["dev:1"; "dev:1"]) "song" (NewPipeWireRecorder guitar_config)
           _ H1 eq_refl H2 H3 eq_refl).
Defined.


Lemma session_well_formed_witness :
  let s := {| SongName := "song"; StartTime := 0; OutputFile := "out/song.mkv";
              ChannelCount := 1; ChannelNames := ["guitar:[dev:1]"] |} in
  reachable join_clean guitar_config recording_guitar
  /\ session recording_guitar = Some s
  /\ cfg recording_guitar = guitar_config
  /\ SongName s <> ""
  /\ OutputFile s
     = join_clean (Output_Directory guitar_config) (cleanFileName (SongName s) +:+ ".mkv")
  /\ ChannelCount s = length (Channels guitar_config)
  /\ ChannelNames s = map channel_label (Channels guitar_config).
Proof.
  cbn zeta. split; [exact Examples.recording_guitar_reachable|].
  split; [reflexivity|].
  exact (MoreInvariants.session_well_formed join_clean guitar_config
           recording_guitar _ Examples.recording_guitar_reachable eq_refl).
Defined.

Lemma recordingWorker_connections_witness :
  In (Worker.ConnectPorts "app:right" "jamcapture_backing:input_2")
    (Worker.recordingWorker prompt_worker (Channels stereo_config))
  /\ enabled "app:right" = true
  /\ In (Worker.WaitPort "jamcapture_backing:input_2" true)
       (Worker.recordingWorker prompt_worker (Channels stereo_config)).
Proof.
  assert (H : In (Worker.ConnectPorts "app:right" "jamcapture_backing:input_2")
                (Worker.recordingWorker prompt_worker (Channels stereo_config)))
    by (vm_compute; right; right; right; left; reflexivity).
  split; [exact H|].
  destruct (MoreWorker.recordingWorker_connections _ _ _ _ H) as (Hen & _ & Hw).
  split; [exact Hen | exact Hw].
Defined.

End MoreExamples.
